(** * slidemachine: the slide expansion engine, the splitter and the renderer

    A shallow embedding of [slidemachine/slidemachine.py] (classes [Slide]
    and [SlideMachine]) and the properties of its specification.

    Python values are modelled untyped, as the code handles them: an entry
    of a slide is a Python object that is either a [str] or a [tuple]; the
    test [type(new_line) is tuple] of [Slide.apply] is [is_tuple].  A Python
    [str] is a [string] whose characters stand for code points below 256.
    Exceptions are values of [exn]; a method of [Slide] is a function from
    the object's state to an outcome and the object's state afterwards. *)

From Stdlib Require Import ZArith Ascii String.
From stdpp Require Import base option list strings gmap.

Set Warnings "-register-all".
Local Open Scope Z_scope.

(** ** Python values *)

Inductive pyobj : Type :=
  | Str (s : string)
  | Tuple (items : list pyobj).

(** [type(x) is tuple] *)
Definition is_tuple (x : pyobj) : bool :=
  match x with
  | Tuple _ => true
  | Str _ => false
  end.

Inductive exn : Type :=
  | SlideMachineError (err : string)
  | TypeError
  | IndexError
  | AttributeError.

(** The result of evaluating an expression that may raise. *)
Inductive outcome (A : Type) : Type :=
  | Return (a : A)
  | Raise (e : exn).
Arguments Return {A} a.
Arguments Raise {A} e.

#[global] Instance outcome_ret : MRet outcome := fun _ a => Return a.
#[global] Instance outcome_bind : MBind outcome := fun _ _ f m =>
  match m with
  | Return a => f a
  | Raise e => Raise e
  end.

(** ** Strings *)

Definition nl : ascii := "010"%char.
Definition dquote : ascii := "034"%char.
Definition NL : string := String nl EmptyString.

(** [sep.join(xs)] with [sep] the empty string, on Python strings. *)
Fixpoint join_strs (xs : list string) : string :=
  match xs with
  | [] => EmptyString
  | x :: rest => x +:+ join_strs rest
  end.

(** [sep.join(xs)] with [sep] the empty string, on Python objects: an item
    that is not a [str] raises [TypeError]. *)
Fixpoint join (xs : list pyobj) : outcome string :=
  match xs with
  | [] => Return EmptyString
  | Str s :: rest => r ← join rest; Return (s +:+ r)
  | Tuple _ :: _ => Raise TypeError
  end.

(** [s.split(sep)] for a separator of one character: the pieces between the
    separators, empty pieces included. *)
Fixpoint split_from (sep : ascii) (piece : string) (s : string) : list string :=
  match s with
  | EmptyString => [piece]
  | String c rest =>
      if Ascii.eqb c sep then piece :: split_from sep EmptyString rest
      else split_from sep (piece +:+ String c EmptyString) rest
  end.

Definition split (sep : ascii) (s : string) : list string :=
  split_from sep EmptyString s.

(** [c.isspace()] for a code point below 256: tab to carriage return, the
    four separators 28 to 31, the space, NEL (133) and the no-break space
    (160). *)
Definition isspace (c : ascii) : bool :=
  let n := Z.of_nat (nat_of_ascii c) in
  ((9 <=? n) && (n <=? 13)) || ((28 <=? n) && (n <=? 32))
  || (n =? 133) || (n =? 160).

(** [s.rstrip()]: drops the longest suffix of whitespace. *)
Fixpoint rstrip (s : string) : string :=
  match s with
  | EmptyString => EmptyString
  | String c rest =>
      match rstrip rest with
      | EmptyString => if isspace c then EmptyString else String c EmptyString
      | r => String c r
      end
  end.

(** Iterating over an object, [for t in x]: the items of a tuple, the
    characters of a string. *)
Fixpoint chars (s : string) : list pyobj :=
  match s with
  | EmptyString => []
  | String c rest => Str (String c EmptyString) :: chars rest
  end.

Definition py_iter (x : pyobj) : list pyobj :=
  match x with
  | Tuple items => items
  | Str s => chars s
  end.

(** [xs[i]] for [0 <= i]; out of range raises [IndexError]. *)
Definition getitem {A} (xs : list A) (i : Z) : outcome A :=
  match xs !! Z.to_nat i with
  | Some x => Return x
  | None => Raise IndexError
  end.

(** [copy.deepcopy]: values are immutable in this model, so a copy equals
    its original; aliasing is treated apart, in [Module Store]. *)
Definition deepcopy {A} (x : A) : A := x.

(** ** Processors

    [process] is the method [processor.process(line)], taken as a function
    of the line (what a processor writes to disk is not modelled);
    [processor_str] is the text [format] produces for the processor
    object. *)
Record Processor : Type := mkProcessor {
  processor_str : string;
  process : pyobj -> pyobj
}.

(** ** class Slide *)

Record Slide : Type := mkSlide {
  _slide_lines : list pyobj;
  _sub_slides : list (list pyobj);
  _override_transition : bool
}.

(** A method: from the state of [self] to an outcome and the state of
    [self] afterwards.  An exception leaves the state as it was when it was
    raised. *)
Definition method (A : Type) : Type := Slide -> outcome A * Slide.

#[global] Instance method_ret : MRet method := fun _ a self => (Return a, self).
#[global] Instance method_bind : MBind method := fun _ _ f m self =>
  match m self with
  | (Return a, self') => f a self'
  | (Raise e, self') => (Raise e, self')
  end.

Definition get_self : method Slide := fun self => (Return self, self).
Definition lift {A} (o : outcome A) : method A := fun self => (o, self).
Definition set__sub_slides (v : list (list pyobj)) : method unit := fun self =>
  (Return tt, mkSlide (_slide_lines self) v (_override_transition self)).
Definition set__override_transition (v : bool) : method unit := fun self =>
  (Return tt, mkSlide (_slide_lines self) (_sub_slides self) v).

(** [Slide.__init__] *)
Definition Slide_init (slide_lines : list pyobj) : Slide :=
  let lines := deepcopy slide_lines in
  mkSlide lines [deepcopy lines] false.

(** The message of the error [Slide.apply] raises; joining the slide's lines
    is part of building it. *)
Definition expansion_error {A} (self : Slide) (processor : Processor) : outcome A :=
  let err := "Error in " +:+ processor_str processor +:+ "." in
  let err := err +:+ "A slide cannot contain more than one tag of the same " in
  let err := err +:+ "type that expand into multiple slides." +:+ NL +:+ NL in
  let err := err +:+ "Offending slide:" +:+ NL +:+ NL in
  text ← join (_slide_lines self);
  Raise (SlideMachineError (err +:+ text)).

(** The loop over the lines of one sub-slide, [for i, line in
    enumerate(sub_slide)], with the variables it updates. *)
Fixpoint apply_lines (self : Slide) (processor : Processor)
    (lines : list pyobj) (i : Z)
    (new_lines : list pyobj) (expanded_line : Z)
    (processor_expanded_slide : bool)
  : outcome (list pyobj * Z * bool) :=
  match lines with
  | [] => Return (new_lines, expanded_line, processor_expanded_slide)
  | line :: rest =>
      let new_line := process processor line in
      let new_lines := new_lines ++ [new_line] in
      if is_tuple new_line then
        if expanded_line >=? 0 then expansion_error self processor
        else apply_lines self processor rest (i + 1) new_lines i true
      else
        apply_lines self processor rest (i + 1) new_lines expanded_line
          processor_expanded_slide
  end.

(** What follows the loop over the lines: the new sub-slides of one
    sub-slide, appended to [new_sub_slides]. *)
Definition apply_rejoin (new_lines : list pyobj) (expanded_line : Z)
    (new_sub_slides : list (list pyobj)) : outcome (list (list pyobj)) :=
  if expanded_line >=? 0 then
    let first_half := take (Z.to_nat expanded_line) new_lines in
    let second_half := drop (Z.to_nat (expanded_line + 1)) new_lines in
    expansion ← getitem new_lines expanded_line;
    Return (foldl (fun new_sub_slides t =>
                     let out := deepcopy first_half in
                     let out := out ++ [t] in
                     let out := out ++ second_half in
                     new_sub_slides ++ [out])
                  new_sub_slides (py_iter expansion))
  else
    Return (new_sub_slides ++ [new_lines]).

(** The loop [for sub_slide in self._sub_slides]. *)
Fixpoint apply_sub_slides (self : Slide) (processor : Processor)
    (sub_slides : list (list pyobj))
    (new_sub_slides : list (list pyobj)) (processor_expanded_slide : bool)
  : outcome (list (list pyobj) * bool) :=
  match sub_slides with
  | [] => Return (new_sub_slides, processor_expanded_slide)
  | sub_slide :: rest =>
      '(new_lines, expanded_line, processor_expanded_slide) ←
        apply_lines self processor sub_slide 0 [] (-1) processor_expanded_slide;
      new_sub_slides ← apply_rejoin new_lines expanded_line new_sub_slides;
      apply_sub_slides self processor rest new_sub_slides processor_expanded_slide
  end.

(** [Slide.apply] *)
Definition apply (processor : Processor) : method unit :=
  self ← get_self;
  '(new_sub_slides, processor_expanded_slide) ←
    lift (apply_sub_slides self processor (_sub_slides self) [] false);
  _ ← set__sub_slides (deepcopy new_sub_slides);
  if processor_expanded_slide : bool then set__override_transition true
  else mret tt.

(** The instance dictionary of a slide object: the attributes that
    [__init__] creates and [apply] assigns.  Nothing else in the module
    sets an attribute of a slide. *)
Inductive attr : Type :=
  | AttrLines (v : list pyobj)
  | AttrSubSlides (v : list (list pyobj))
  | AttrBool (v : bool).

Definition instance_dict (self : Slide) : gmap string attr :=
  {[ "_slide_lines" := AttrLines (_slide_lines self);
     "_sub_slides" := AttrSubSlides (_sub_slides self);
     "_override_transition" := AttrBool (_override_transition self) ]}.

(** [self.name] for a name that the class does not define: a lookup in the
    instance dictionary, [AttributeError] when the name is missing. *)
Definition getattr (self : Slide) (name : string) : outcome attr :=
  match instance_dict self !! name with
  | Some v => Return v
  | None => Raise AttributeError
  end.

(** [Slide.markdown] (a property: it reads [self] and assigns nothing). *)
Definition markdown (self : Slide) : outcome string :=
  v ← getattr self "_original_slide_lines";
  match v with
  | AttrLines lines => join lines
  | _ => Raise TypeError
  end.

Section Render.

(** The renderer [mistune.Markdown()], a function from markdown text to
    html text. *)
Variable mistune_markdown : string -> string.

Definition section_none : string :=
  "<section data-transition=" +:+ String dquote "none" +:+ String dquote ">" +:+ NL.
Definition section_plain : string := "<section>" +:+ NL.
Definition section_end : string := NL +:+ "</section>" +:+ NL +:+ NL.

(** The loop [for i, s in enumerate(self._sub_slides)] of [Slide.html]. *)
Fixpoint html_sub_slides (self : Slide) (sub_slides : list (list pyobj))
    (out : list string) : outcome (list string) :=
  match sub_slides with
  | [] => Return out
  | s :: rest =>
      let start :=
        if _override_transition self then section_none else section_plain in
      text ← join s;
      let middle := mistune_markdown text in
      let middle := split nl middle in
      let middle := join_strs (map (fun m => "  " +:+ m +:+ NL) middle) in
      let middle := rstrip middle in
      let end_ := section_end in
      html_sub_slides self rest (out ++ [start +:+ middle +:+ end_])
  end.

(** [Slide.html] (a property: it reads [self] and assigns nothing). *)
Definition html (self : Slide) : outcome string :=
  out ← html_sub_slides self (_sub_slides self) [];
  Return (join_strs out).

End Render.

(** ** class SlideMachine: splitting the document *)

Section ReadMdFile.

(** [slide_break.search(line)] found a match, for the pattern compiled
    from [self._slide_break]. *)
Variable slide_break_search : string -> bool.

(** The loop [for line in self._md_file_content] of [_read_md_file], with
    [self._slides] and [slide_content]. *)
Fixpoint read_lines (md_file_content : list string)
    (slides : list Slide) (slide_content : list pyobj) : list Slide * list pyobj :=
  match md_file_content with
  | [] => (slides, slide_content)
  | line :: rest =>
      if slide_break_search line then
        read_lines rest (slides ++ [Slide_init slide_content]) []
      else
        read_lines rest slides (slide_content ++ [Str line])
  end.

(** [SlideMachine._read_md_file], from the lines [readlines] returned to
    the value of [self._slides]. *)
Definition _read_md_file (md_file_content : list string) : list Slide :=
  let '(slides, slide_content) := read_lines md_file_content [] [] in
  slides ++ [Slide_init slide_content].

End ReadMdFile.

(** The pattern [">>>"], the value [SlideMachine.__init__] gives
    [self._slide_break]: it has no special character, so searching it is
    searching the substring. *)
Fixpoint is_prefix (p s : string) : bool :=
  match p, s with
  | EmptyString, _ => true
  | String a p', String b s' => Ascii.eqb a b && is_prefix p' s'
  | String _ _, EmptyString => false
  end.

Fixpoint contains (p s : string) : bool :=
  is_prefix p s ||
  match s with
  | EmptyString => false
  | String _ s' => contains p s'
  end.

Definition default_slide_break : string := ">>>".

(** ** The expanding lines of a sub-slide

    Auxiliary functions for the statements: how many lines of a sub-slide
    the processor turns into a tuple, and the first of them. *)

Local Close Scope Z_scope.

Fixpoint count_tuples (p : Processor) (lines : list pyobj) : nat :=
  match lines with
  | [] => 0
  | line :: rest =>
      (if is_tuple (process p line) then 1 else 0) + count_tuples p rest
  end.

Fixpoint first_tuple (p : Processor) (lines : list pyobj)
  : option (nat * list pyobj) :=
  match lines with
  | [] => None
  | line :: rest =>
      match process p line with
      | Tuple items => Some (0, items)
      | Str _ => prod_map S id <$> first_tuple p rest
      end
  end.

(** The sub-slides that one sub-slide turns into when at most one of its
    lines expands. *)
Definition rejoined (p : Processor) (sub_slide : list pyobj) : list (list pyobj) :=
  let new_lines := process p <$> sub_slide in
  match first_tuple p sub_slide with
  | Some (k, items) => (fun t => <[k := t]> new_lines) <$> items
  | None => [new_lines]
  end.

Definition expands (p : Processor) (sub_slide : list pyobj) : bool :=
  existsb (fun line => is_tuple (process p line)) sub_slide.

(** A sequence of calls of [apply] on one slide; a caller that catches the
    exception of one call goes on with the next. *)
Definition calls (ps : list Processor) (self : Slide) : Slide :=
  foldl (fun self p => (apply p self).2) self ps.

(** ** The slide and the lists of its caller

    A Python list is an object with an identity: two names of one list see
    each other's changes.  The store holds the list objects; strings and
    tuples cannot change and need no place in it.  A slide object refers
    to the list of its lines and to the lists of its sub-slides. *)
Module Store.

Abbreviation store := (gmap nat (list pyobj)).

Record SlideObj : Type := mkSlideObj {
  lines_ref : nat;
  sub_slide_refs : list nat;
  override : bool
}.

(** A new list object. *)
Definition alloc (st : store) (v : list pyobj) : nat * store :=
  let l := fresh (dom st) in (l, <[l := v]> st).

(** [copy.deepcopy(x)] for a list [x] of strings and tuples: a new list
    object with the same items. *)
Definition deepcopy (st : store) (l : nat) : option (nat * store) :=
  v ← st !! l; Some (alloc st v).

(** [Slide.__init__], called with the list object [slide_lines]. *)
Definition Slide_init (st : store) (slide_lines : nat) : option (SlideObj * store) :=
  '(l1, st1) ← deepcopy st slide_lines;
  '(l2, st2) ← deepcopy st1 l1;
  Some (mkSlideObj l1 [l2] false, st2).

Fixpoint read_all (st : store) (refs : list nat) : option (list (list pyobj)) :=
  match refs with
  | [] => Some []
  | r :: rest => v ← st !! r; vs ← read_all st rest; Some (v :: vs)
  end.

(** The state of a slide object, read from the store. *)
Definition read (st : store) (o : SlideObj) : option Slide :=
  lines ← st !! lines_ref o;
  subs ← read_all st (sub_slide_refs o);
  Some (mkSlide lines subs (override o)).

Fixpoint alloc_all (st : store) (vs : list (list pyobj)) : list nat * store :=
  match vs with
  | [] => ([], st)
  | v :: rest =>
      let '(l, st1) := alloc st v in
      let '(ls, st2) := alloc_all st1 rest in
      (l :: ls, st2)
  end.

(** [Slide.apply] on a slide object: the assignment
    [self._sub_slides = copy.deepcopy(new_sub_slides)] gives the slide new
    list objects, and [self._slide_lines] is not assigned. *)
Definition apply (p : Processor) (st : store) (o : SlideObj)
  : option (outcome unit * SlideObj * store) :=
  self ← read st o;
  match apply p self with
  | (Return _, self') =>
      let '(refs, st') := alloc_all st (_sub_slides self') in
      Some (Return tt,
            mkSlideObj (lines_ref o) refs (_override_transition self'), st')
  | (Raise e, _) => Some (Raise e, o, st)
  end.

(** What happens after the slide is built: the caller changes a list it
    holds (append, item assignment, deletion: the list has new items), or
    calls [apply]. *)
Inductive step : Type :=
  | CallerWrite (l : nat) (v : list pyobj)
  | Apply (p : Processor).

Fixpoint run (steps : list step) (o : SlideObj) (st : store)
  : option (SlideObj * store) :=
  match steps with
  | [] => Some (o, st)
  | CallerWrite l v :: rest => run rest o (<[l := v]> st)
  | Apply p :: rest =>
      '(_, o', st') ← apply p st o;
      run rest o' st'
  end.

Fixpoint processors_of (steps : list step) : list Processor :=
  match steps with
  | [] => []
  | CallerWrite _ _ :: rest => processors_of rest
  | Apply p :: rest => p :: processors_of rest
  end.

(** The caller writes only to lists that existed before the slide. *)
Definition caller_step (st0 : store) (s : step) : Prop :=
  match s with
  | CallerWrite l _ => l ∈ dom st0
  | Apply _ => True
  end.

End Store.

(** ** Auxiliary definitions of the statements *)

(** The exception that [expansion_error] raises. *)
Definition expansion_exn (self : Slide) (processor : Processor) : exn :=
  match @expansion_error unit self processor with
  | Raise e => e
  | Return _ => TypeError
  end.

Definition at_most_one (p : Processor) (self : Slide) : Prop :=
  Forall (fun sub => count_tuples p sub <= 1) (_sub_slides self).

Definition clash (p : Processor) (self : Slide) : Prop :=
  Exists (fun sub => 2 <= count_tuples p sub) (_sub_slides self).

(** Processors and slides for the examples. *)

(** Leaves every line as it is. *)
Definition plain : Processor := mkProcessor "plain" (fun line => line).

(** Turns a line that starts with [IMG:] into three alternative lines. *)
Definition images : Processor :=
  mkProcessor "images" (fun line =>
    match line with
    | Str s =>
        if is_prefix "IMG:" s
        then Tuple [Str ("one" +:+ NL); Str ("two" +:+ NL); Str ("three" +:+ NL)]
        else line
    | Tuple _ => line
    end).

(** Turns a line that starts with [IMG:] into a tuple of one line. *)
Definition single : Processor :=
  mkProcessor "single" (fun line =>
    match line with
    | Str s => if is_prefix "IMG:" s then Tuple [Str ("one" +:+ NL)] else line
    | Tuple _ => line
    end).

Definition captioned : Slide :=
  Slide_init [Str ("IMG:x" +:+ NL); Str ("caption" +:+ NL)].

Definition two_images : Slide :=
  Slide_init [Str ("IMG:x" +:+ NL); Str ("IMG:y" +:+ NL)].

(** Removes the second and third variant that [images] makes. *)
Definition first_only : Processor :=
  mkProcessor "first_only" (fun line =>
    match line with
    | Str s => if is_prefix "t" s then Tuple [] else line
    | Tuple _ => line
    end).

(** The pieces of [split] are the lines of the text: they hold no
    separator, and joined with the separator they give the text back. *)
Fixpoint has_char (c : ascii) (s : string) : bool :=
  match s with
  | EmptyString => false
  | String x rest => Ascii.eqb x c || has_char c rest
  end.

Fixpoint join_with (sep : string) (xs : list string) : string :=
  match xs with
  | [] => EmptyString
  | [x] => x
  | x :: rest => x +:+ sep +:+ join_with sep rest
  end.

Fixpoint all_space (s : string) : bool :=
  match s with
  | EmptyString => true
  | String c rest => isspace c && all_space rest
  end.

(** The wrapped block of one sub-slide, step by step. *)
Definition opening (flag : bool) : string :=
  if flag then section_none else section_plain.

Definition indent (block : string) : string :=
  join_strs ((fun m => "  " +:+ m +:+ NL) <$> split nl block).

Definition wrap (md : string -> string) (flag : bool) (sub : list string) : string :=
  opening flag +:+ rstrip (indent (md (join_strs sub)))
  +:+ NL +:+ "</section>" +:+ NL +:+ NL.

Definition no_transition_attribute : string :=
  "data-transition=" +:+ String dquote "none" +:+ String dquote EmptyString.

(** What [_read_md_file] does after its loop. *)
Definition finish (state : list Slide * list pyobj) : list Slide :=
  state.1 ++ [Slide_init state.2].

(** The slide object [o] in the store [st] has the state [self], and its
    lists are none of those the caller had before the slide was built. *)
Definition owned (st0 st : gmap nat (list pyobj)) (o : Store.SlideObj)
    (self : Slide) : Prop :=
  (dom st0 ⊆ dom st) /\
  (Store.lines_ref o ∉ dom st0) /\
  Forall (fun r => r ∉ dom st0) (Store.sub_slide_refs o) /\
  Store.read st o = Some self.

(** The sub-slides hold strings only. *)
Definition textual (subs : list (list pyobj)) : Prop :=
  Forall (Forall (fun x => is_tuple x = false)) subs.

(** ** class SlideMachine: processing and merging *)

(** The exceptions of the methods of [SlideMachine]: those of [exn] and two
    more builtin ones. *)
Inductive pyexn : Type :=
  | Exn (e : exn)
  | IOError (err : string)
  | NameError.

Inductive result (A : Type) : Type :=
  | Ok (a : A)
  | Err (e : pyexn).
Arguments Ok {A} a.
Arguments Err {A} e.

#[global] Instance result_ret : MRet result := fun _ a => Ok a.
#[global] Instance result_bind : MBind result := fun _ _ f m =>
  match m with
  | Ok a => f a
  | Err e => Err e
  end.

(** [m.start()] for [m = re.search(p, s)] and a pattern [p] without special
    characters: the index of the first occurrence of [p] in [s]; [None]
    when there is no match. *)
Fixpoint find (p s : string) : option nat :=
  if is_prefix p s then Some 0
  else
    match s with
    | EmptyString => None
    | String _ s' => S <$> find p s'
    end.

(** [s[:n]] and [s[n:]] for [0 <= n]. *)
Fixpoint take_str (n : nat) (s : string) : string :=
  match n, s with
  | S n', String c s' => String c (take_str n' s')
  | _, _ => EmptyString
  end.

Fixpoint drop_str (n : nat) (s : string) : string :=
  match n, s with
  | S n', String _ s' => drop_str n' s'
  | _, _ => s
  end.

(** [s.lstrip()] and [s.strip()]. *)
Fixpoint lstrip (s : string) : string :=
  match s with
  | EmptyString => EmptyString
  | String c s' => if isspace c then lstrip s' else s
  end.

Definition strip (s : string) : string := rstrip (lstrip s).

(** [n * " "] *)
Fixpoint spaces (n : nat) : string :=
  match n with
  | 0 => EmptyString
  | S n' => String " " (spaces n')
  end.

(** The pattern [class="slides"] of [_merge_with_reveal_file]. *)
Definition slides_class : string :=
  "class=" +:+ String dquote "slides" +:+ String dquote EmptyString.

Module SlideMachine.

(** The attributes of a machine that [process] and the properties use.
    [_html] is set by [process] only: [None] stands for an object without
    this attribute.  Each slide of [_slides] is an object of its own, so
    the state of the list is the list of the states. *)
Record machine : Type := mkMachine {
  _force : bool;
  _processors : list Processor;
  _md_file_content : list string;
  _slides : list Slide;
  _html : option string
}.

Definition set__slides (self : machine) (v : list Slide) : machine :=
  mkMachine (_force self) (_processors self) (_md_file_content self) v (_html self).

Definition set__html (self : machine) (v : string) : machine :=
  mkMachine (_force self) (_processors self) (_md_file_content self)
    (_slides self) (Some v).

(** The inner loop of [process], [for slide in self._slides:
    slide.apply(processor)]: an exception leaves the slides before it
    changed and the others as they were. *)
Fixpoint apply_slides (processor : Processor) (slides : list Slide)
  : outcome unit * list Slide :=
  match slides with
  | [] => (Return tt, [])
  | slide :: rest =>
      match apply processor slide with
      | (Return _, slide') =>
          let '(o, rest') := apply_slides processor rest in
          (o, slide' :: rest')
      | (Raise e, slide') => (Raise e, slide' :: rest)
      end
  end.

(** The outer loop of [process], [for processor in self._processors]. *)
Fixpoint apply_processors (processors : list Processor) (slides : list Slide)
  : outcome unit * list Slide :=
  match processors with
  | [] => (Return tt, slides)
  | processor :: rest =>
      match apply_slides processor slides with
      | (Return _, slides') => apply_processors rest slides'
      | (Raise e, slides') => (Raise e, slides')
      end
  end.

(** The loop [for slide in self._slides: html.append(slide.html)]. *)
Fixpoint html_slides (mistune_markdown : string -> string)
    (slides : list Slide) (html_list : list string) : outcome (list string) :=
  match slides with
  | [] => Return html_list
  | slide :: rest =>
      h ← html mistune_markdown slide;
      html_slides mistune_markdown rest (html_list ++ [h])
  end.

(** Reading the attribute [self._html]. *)
Definition get__html (self : machine) : result string :=
  match _html self with
  | Some h => Ok h
  | None => Err (Exn AttributeError)
  end.

(** [SlideMachine.markdown] *)
Definition markdown (self : machine) : string :=
  join_strs (_md_file_content self).

(** [SlideMachine.html] *)
Definition html (self : machine) : result string := get__html self.

(** The loop over the lines of the reveal file in
    [_merge_with_reveal_file]; [indent] is [None] as long as the variable
    is not assigned.  The numbers are lengths and indices, never
    negative. *)
Fixpoint merge_lines (lines : list string) (filling_top : bool)
    (top bottom : list string) (indent : option string)
  : result (list string * list string * option string) :=
  match lines with
  | [] => Ok (top, bottom, indent)
  | l :: rest =>
      if filling_top then
        match find slides_class l with
        | Some m_start =>
            let attrib_end := m_start + String.length slides_class in
            match find ">" (drop_str attrib_end l) with
            | None => Err (Exn AttributeError)
            | Some gt_start =>
                let end_of_tag := gt_start + 1 in
                let break_index := attrib_end + end_of_tag + 1 in
                let with_top := take_str (break_index - 1) l in
                let with_bottom := drop_str (break_index - 1) l in
                let indent :=
                  spaces (String.length l - String.length (lstrip l) + 2) in
                let top := top ++ [with_top] in
                let top := top ++ [NL +:+ NL] in
                let bottom := bottom ++ [NL] in
                let bottom :=
                  bottom ++ [spaces (String.length l - String.length (strip l))] in
                let bottom := bottom ++ [with_bottom] in
                merge_lines rest false top bottom (Some indent)
            end
        | None => merge_lines rest filling_top (top ++ [l]) bottom indent
        end
      else merge_lines rest filling_top top (bottom ++ [l]) indent
  end.

(** The list [[indent + h for h in html]]: the variable [indent] is read
    for each item, and reading it unassigned raises [NameError] (its
    subclass [UnboundLocalError] in recent versions of Python). *)
Fixpoint format_lines (indent : option string) (html_lines : list string)
  : result (list string) :=
  match html_lines with
  | [] => Ok []
  | h :: rest =>
      match indent with
      | None => Err NameError
      | Some i => r ← format_lines indent rest; Ok ((i +:+ h) :: r)
      end
  end.

(** [SlideMachine._merge_with_reveal_file], on the lines of the reveal
    file. *)
Definition _merge_with_reveal_file (reveal_file : list string) (self : machine)
  : result string :=
  '(top, bottom, indent) ← merge_lines reveal_file true [] [] None;
  let reveal_top := join_strs top in
  let reveal_bottom := join_strs bottom in
  h ← get__html self;
  let html_lines := split nl h in
  html_lines ← format_lines indent html_lines;
  let h := join_with NL html_lines in
  Ok (reveal_top +:+ h +:+ reveal_bottom).

(** [SlideMachine.process]: [output_exists] is the answer of
    [os.path.isfile(output_file)], [reveal_html_file] the lines of the
    reveal file when one is given; the result is the text written to the
    output file.  The removal of an old output file is not modelled. *)
Definition process (mistune_markdown : string -> string)
    (output_file : string) (output_exists : bool)
    (reveal_html_file : option (list string)) (self : machine)
  : result string * machine :=
  if output_exists && negb (_force self) then
    let err := NL +:+ NL +:+ "Output file " +:+ output_file +:+ " exists."
               +:+ NL +:+ NL in
    let err := err +:+ "Use --force to overwrite." in
    (Err (IOError err), self)
  else
    match apply_processors (_processors self) (_slides self) with
    | (Raise e, slides') => (Err (Exn e), set__slides self slides')
    | (Return _, slides') =>
        let self := set__slides self slides' in
        match html_slides mistune_markdown (_slides self) [] with
        | Raise e => (Err (Exn e), self)
        | Return html_list =>
            let self := set__html self (join_strs html_list) in
            match reveal_html_file with
            | Some reveal_file => (_merge_with_reveal_file reveal_file self, self)
            | None => (html self, self)
            end
        end
    end.

End SlideMachine.

(** The document put together again from the lines of the slides and the
    delimiter lines between them. *)
Fixpoint weave (segments : list (list pyobj)) (delimiters : list pyobj)
  : list pyobj :=
  match segments, delimiters with
  | s :: segments', d :: delimiters' => s ++ d :: weave segments' delimiters'
  | s :: _, [] => s
  | [], _ => []
  end.

(** Every call of the passes [ps] on the slide returns. *)
Fixpoint all_return (ps : list Processor) (self : Slide) : Prop :=
  match ps with
  | [] => True
  | p :: rest => (apply p self).1 = Return tt /\ all_return rest (apply p self).2
  end.

(** A processor whose tuple holds a tuple. *)
Definition nested : Processor :=
  mkProcessor "nested" (fun line =>
    match line with
    | Str s => if is_prefix "IMG:" s then Tuple [Tuple []] else line
    | Tuple _ => line
    end).

(** Turns a line that starts with [IMG:] into the empty tuple. *)
Definition none_of : Processor :=
  mkProcessor "none_of" (fun line =>
    match line with
    | Str s => if is_prefix "IMG:" s then Tuple [] else line
    | Tuple _ => line
    end).

(** The machine of the document [A], delimiter, [B], [C], without
    processors. *)
Definition two_slides : SlideMachine.machine :=
  SlideMachine.mkMachine false []
    ["A" +:+ NL; ">>>" +:+ NL; "B" +:+ NL; "C" +:+ NL]
    (_read_md_file (contains default_slide_break)
       ["A" +:+ NL; ">>>" +:+ NL; "B" +:+ NL; "C" +:+ NL])
    None.

(** * Properties *)

Section CountTuples.

Context (p : Processor).

Lemma count_tuples_app l1 l2 :
  count_tuples p (l1 ++ l2) = count_tuples p l1 + count_tuples p l2.
Proof. induction l1 as [|x l1 IH]; simpl; [done | rewrite IH; lia]. Qed.

Lemma count_tuples_zero lines :
  count_tuples p lines = 0 <->
  forall line, line ∈ lines -> is_tuple (process p line) = false.
Proof.
  induction lines as [|x lines IH]; simpl.
  - split; [intros _ line Hin; inversion Hin | done].
  - destruct (is_tuple (process p x)) eqn:Hx; simpl.
    + split; [lia | intros H; specialize (H x (list_elem_of_here _ _)); congruence].
    + rewrite IH. split.
      * intros H line Hin. apply elem_of_cons in Hin as [-> | Hin]; auto.
      * intros H line Hin. apply H. by apply list_elem_of_further.
Qed.

Lemma count_tuples_lookup lines i line :
  lines !! i = Some line -> is_tuple (process p line) = true ->
  1 <= count_tuples p lines.
Proof.
  intros Hi Ht. destruct (count_tuples p lines) eqn:Hc; [| lia].
  apply count_tuples_zero with (line := line) in Hc; [congruence |].
  by eapply list_elem_of_lookup_2.
Qed.

Lemma count_tuples_pos_inv lines :
  1 <= count_tuples p lines ->
  exists i line, lines !! i = Some line /\ is_tuple (process p line) = true.
Proof.
  induction lines as [|x lines IH]; simpl; [lia |].
  destruct (is_tuple (process p x)) eqn:Hx; simpl; intros Hc.
  - by exists 0, x.
  - destruct (IH Hc) as (i & line & Hi & Ht). by exists (S i), line.
Qed.

Lemma count_tuples_two lines i j a b :
  lines !! i = Some a -> lines !! j = Some b -> i <> j ->
  is_tuple (process p a) = true -> is_tuple (process p b) = true ->
  2 <= count_tuples p lines.
Proof.
  revert i j. induction lines as [|x lines IH]; intros i j Hi Hj Hne Ha Hb.
  - by rewrite lookup_nil in Hi.
  - simpl. destruct i as [|i], j as [|j]; simpl in *; simplify_eq.
    + rewrite Ha. pose proof (count_tuples_lookup _ _ _ Hj Hb). lia.
    + rewrite Hb. pose proof (count_tuples_lookup _ _ _ Hi Ha). lia.
    + assert (2 <= count_tuples p lines) by (eapply (IH i j); eauto). lia.
Qed.

Lemma count_tuples_two_inv lines :
  2 <= count_tuples p lines ->
  exists i j a b, i < j /\ lines !! i = Some a /\ lines !! j = Some b /\
    is_tuple (process p a) = true /\ is_tuple (process p b) = true.
Proof.
  induction lines as [|x lines IH]; simpl; [lia |].
  destruct (is_tuple (process p x)) eqn:Hx; simpl; intros Hc.
  - destruct (count_tuples p lines) eqn:Hn; [lia |].
    destruct (count_tuples_pos_inv lines) as (j & b & Hj & Hb); [lia |].
    exists 0, (S j), x, b. repeat split; auto. lia.
  - destruct (IH Hc) as (i & j & a & b & Hlt & Hi & Hj & Ha & Hb).
    exists (S i), (S j), a, b. repeat split; auto. lia.
Qed.

Lemma expands_count lines :
  expands p lines = false <-> count_tuples p lines = 0.
Proof.
  unfold expands. induction lines as [|x lines IH]; simpl; [done |].
  destruct (is_tuple (process p x)); simpl; [split; [done | lia] | done].
Qed.

Lemma expands_true lines :
  expands p lines = true <->
  exists line, line ∈ lines /\ is_tuple (process p line) = true.
Proof.
  unfold expands. rewrite existsb_exists. setoid_rewrite list_elem_of_In. done.
Qed.

(** The first expanding line, when there is exactly one. *)
Lemma first_tuple_unique lines k line items :
  lines !! k = Some line -> process p line = Tuple items ->
  (forall j l, lines !! j = Some l -> j <> k -> is_tuple (process p l) = false) ->
  first_tuple p lines = Some (k, items) /\ count_tuples p lines = 1.
Proof.
  revert k. induction lines as [|x lines IH]; intros k Hk Hp Hothers.
  - by rewrite lookup_nil in Hk.
  - destruct k as [|k]; simpl in *.
    + simplify_eq. rewrite Hp. simpl. split; [done |].
      assert (count_tuples p lines = 0) as ->; [| done].
      apply count_tuples_zero. intros l Hin.
      apply list_elem_of_lookup in Hin as [j Hj].
      by apply (Hothers (S j) l).
    + pose proof (Hothers 0 x eq_refl ltac:(lia)) as Hx.
      destruct (process p x) eqn:Epx; [| done]. simpl.
      destruct (IH k Hk Hp) as [-> ->]; [| done].
      intros j l Hj Hne. apply (Hothers (S j) l); [done | lia].
Qed.

Lemma first_tuple_None lines :
  count_tuples p lines = 0 -> first_tuple p lines = None.
Proof.
  induction lines as [|x lines IH]; simpl; [done |].
  destruct (process p x); simpl; [| lia]. intros H. by rewrite IH.
Qed.

Lemma first_tuple_Some lines :
  1 <= count_tuples p lines ->
  exists k line items, first_tuple p lines = Some (k, items) /\
    lines !! k = Some line /\ process p line = Tuple items.
Proof.
  induction lines as [|x lines IH]; simpl; [lia |].
  destruct (process p x) eqn:Epx; simpl; intros Hc.
  - destruct (IH Hc) as (k & line & items & -> & Hk & Hp).
    by exists (S k), line, items.
  - by exists 0, x, items.
Qed.

End CountTuples.

(** ** The loops of [Slide.apply] *)

Lemma expansion_error_raises {A} self processor :
  @expansion_error A self processor = Raise (expansion_exn self processor).
Proof.
  unfold expansion_exn, expansion_error.
  destruct (join (_slide_lines self)); reflexivity.
Qed.

Lemma append_assoc (a b c : string) : (a +:+ b) +:+ c = a +:+ (b +:+ c).
Proof.
  induction a as [|x a IH]; [reflexivity |].
  change (String x ((a +:+ b) +:+ c) = String x (a +:+ (b +:+ c))).
  by rewrite IH.
Qed.

Lemma append_nil_r (a : string) : a +:+ EmptyString = a.
Proof.
  induction a as [|x a IH]; [reflexivity |].
  change (String x (a +:+ EmptyString) = String x a). by rewrite IH.
Qed.

Lemma join_Str (text : list string) : join (Str <$> text) = Return (join_strs text).
Proof.
  induction text as [|x text IH]; csimpl; [done |]. rewrite IH. reflexivity.
Qed.

Lemma expansion_exn_text self processor text :
  _slide_lines self = Str <$> text ->
  expansion_exn self processor =
    SlideMachineError
      ("Error in " +:+ processor_str processor +:+ "."
       +:+ "A slide cannot contain more than one tag of the same "
       +:+ "type that expand into multiple slides." +:+ NL +:+ NL
       +:+ "Offending slide:" +:+ NL +:+ NL +:+ join_strs text).
Proof.
  intros Hlines. unfold expansion_exn, expansion_error.
  rewrite Hlines, join_Str. cbn [mbind outcome_bind]. f_equal.
  rewrite !append_assoc. reflexivity.
Qed.

Lemma foldl_snoc {A B} (f : list A -> B -> list A) (g : B -> A) acc ts :
  (forall a t, f a t = a ++ [g t]) ->
  foldl f acc ts = acc ++ (g <$> ts).
Proof.
  intros Hf. revert acc. induction ts as [|t ts IH]; intros acc; simpl.
  - by rewrite app_nil_r.
  - rewrite IH, Hf. by rewrite <- app_assoc.
Qed.

Section Loops.

Context (self : Slide) (p : Processor).

Lemma apply_lines_none lines i acc e pes :
  count_tuples p lines = 0 ->
  apply_lines self p lines i acc e pes =
    Return (acc ++ (process p <$> lines), e, pes).
Proof.
  revert i acc. induction lines as [|x lines IH]; intros i acc; simpl.
  - by rewrite app_nil_r.
  - destruct (is_tuple (process p x)); simpl; [lia |].
    intros Hc. rewrite IH by done. by rewrite <- app_assoc.
Qed.

Lemma apply_lines_taken lines i acc e pes :
  (0 <= e)%Z -> 1 <= count_tuples p lines ->
  apply_lines self p lines i acc e pes = Raise (expansion_exn self p).
Proof.
  intros He. revert i acc. induction lines as [|x lines IH]; intros i acc; simpl.
  - lia.
  - destruct (is_tuple (process p x)); simpl.
    + intros _. rewrite Z.geb_leb. destruct (Z.leb_spec 0 e); [| lia].
      apply expansion_error_raises.
    + intros Hc. by apply IH.
Qed.

Lemma apply_lines_one lines i acc e pes k items :
  (e < 0)%Z -> count_tuples p lines = 1 ->
  first_tuple p lines = Some (k, items) ->
  apply_lines self p lines i acc e pes =
    Return (acc ++ (process p <$> lines), (i + Z.of_nat k)%Z, true).
Proof.
  intros He. revert i acc k.
  induction lines as [|x lines IH]; intros i acc k; simpl; [lia |].
  destruct (process p x) eqn:Epx; simpl.
  - intros Hc Hf. destruct (first_tuple p lines) as [[k' items']|] eqn:Ef;
      simpl in Hf; [| done]. simplify_eq.
    rewrite (IH (i + 1)%Z _ k') by done. rewrite <- app_assoc. simpl.
    do 3 f_equal. lia.
  - intros Hc Hf. simplify_eq. rewrite Z.geb_leb.
    destruct (Z.leb_spec 0 e); [lia |].
    rewrite apply_lines_none by lia. rewrite <- app_assoc. simpl.
    do 3 f_equal. lia.
Qed.

Lemma apply_lines_two lines i acc e pes :
  (0 <= i)%Z -> 2 <= count_tuples p lines ->
  apply_lines self p lines i acc e pes = Raise (expansion_exn self p).
Proof.
  revert i acc. induction lines as [|x lines IH]; intros i acc Hi; simpl; [lia |].
  destruct (is_tuple (process p x)); simpl; intros Hc.
  - destruct (e >=? 0)%Z; [apply expansion_error_raises |].
    apply apply_lines_taken; lia.
  - apply IH; [lia | done].
Qed.

Lemma apply_rejoin_plain new_lines acc :
  apply_rejoin new_lines (-1) acc = Return (acc ++ [new_lines]).
Proof. reflexivity. Qed.

Lemma apply_rejoin_expanded new_lines k items acc :
  new_lines !! k = Some (Tuple items) ->
  apply_rejoin new_lines (Z.of_nat k) acc =
    Return (acc ++ ((fun t => <[k := t]> new_lines) <$> items)).
Proof.
  intros Hk. unfold apply_rejoin. rewrite Z.geb_leb.
  destruct (Z.leb_spec 0 (Z.of_nat k)); [| lia].
  unfold getitem. rewrite Nat2Z.id, Hk. simpl.
  rewrite (foldl_snoc _ (fun t => <[k := t]> new_lines)); [done |].
  intros a t. simpl. do 2 f_equal.
  replace (Z.to_nat (Z.of_nat k + 1)) with (S k) by lia.
  unfold deepcopy. rewrite <- app_assoc. symmetry. apply insert_take_drop.
  by eapply lookup_lt_Some.
Qed.

Lemma apply_sub_slides_ok sub_slides acc pes :
  Forall (fun sub => count_tuples p sub <= 1) sub_slides ->
  apply_sub_slides self p sub_slides acc pes =
    Return (acc ++ concat (rejoined p <$> sub_slides),
            pes || existsb (expands p) sub_slides).
Proof.
  intros Hall. revert acc pes.
  induction Hall as [|sub subs Hsub Hall IH]; intros acc pes; csimpl.
  - by rewrite app_nil_r, orb_false_r.
  - destruct (count_tuples p sub) as [|n] eqn:Hc.
    + rewrite apply_lines_none by done. csimpl.
      rewrite IH. unfold rejoined. rewrite first_tuple_None by done.
      apply expands_count in Hc. rewrite Hc. csimpl.
      by rewrite <- app_assoc.
    + assert (n = 0) as -> by lia.
      destruct (first_tuple_Some p sub) as (k & line & items & Hf & Hk & Hp);
        [lia |].
      rewrite (apply_lines_one _ _ _ _ _ k items) by (done || lia). csimpl.
      rewrite Z.add_0_l, apply_rejoin_expanded with (items := items).
      2:{ by rewrite list_lookup_fmap, Hk; csimpl; rewrite Hp. }
      csimpl. rewrite IH. unfold rejoined. rewrite Hf.
      assert (expands p sub = true) as ->.
      { apply expands_true. exists line. split.
        - by eapply list_elem_of_lookup_2.
        - by rewrite Hp. }
      rewrite orb_true_r. csimpl. by rewrite <- app_assoc.
Qed.

Lemma apply_sub_slides_raises sub_slides acc pes :
  Exists (fun sub => 2 <= count_tuples p sub) sub_slides ->
  apply_sub_slides self p sub_slides acc pes = Raise (expansion_exn self p).
Proof.
  revert acc pes.
  induction sub_slides as [|sub subs IH]; intros acc pes Hex.
  - by apply Exists_nil in Hex.
  - simpl. destruct (decide (2 <= count_tuples p sub)) as [Hc | Hc].
    + by rewrite apply_lines_two.
    + apply Exists_cons in Hex as [? | Hex]; [done |].
      pose proof (apply_sub_slides_ok [sub] acc pes) as Hone.
      simpl in Hone.
      destruct (apply_lines self p sub 0 [] (-1) pes) as [[[nl' e'] pes']|] eqn:El;
        simpl in *.
      * destruct (apply_rejoin nl' e' acc); simpl in *.
        -- by apply IH.
        -- discriminate Hone. constructor; [lia | constructor].
      * discriminate Hone. constructor; [lia | constructor].
Qed.

End Loops.

(** ** [Slide.apply] as a whole *)

Lemma at_most_one_or_clash p self : at_most_one p self \/ clash p self.
Proof.
  unfold at_most_one, clash.
  induction (_sub_slides self) as [|sub subs [IH | IH]].
  - left. constructor.
  - destruct (decide (count_tuples p sub <= 1)).
    + left. by constructor.
    + right. apply Exists_cons_hd. lia.
  - right. by apply Exists_cons_tl.
Qed.

Lemma apply_returns p self :
  at_most_one p self ->
  apply p self =
    (Return tt,
     mkSlide (_slide_lines self)
       (concat (rejoined p <$> _sub_slides self))
       (_override_transition self || existsb (expands p) (_sub_slides self))).
Proof.
  intros Hall. unfold apply, mbind, method_bind, get_self, lift.
  rewrite apply_sub_slides_ok by done. simpl.
  unfold set__sub_slides, set__override_transition, deepcopy. simpl.
  destruct (existsb (expands p) (_sub_slides self)); simpl.
  - by rewrite orb_true_r.
  - rewrite orb_false_r. by destruct self.
Qed.

Lemma apply_raises p self :
  clash p self -> apply p self = (Raise (expansion_exn self p), self).
Proof.
  intros Hex. unfold apply, mbind, method_bind, get_self, lift.
  by rewrite apply_sub_slides_raises.
Qed.

Lemma apply_Return_inv p self self' :
  apply p self = (Return tt, self') -> at_most_one p self.
Proof.
  intros Happ. destruct (at_most_one_or_clash p self) as [H | H]; [done |].
  rewrite apply_raises in Happ by done. discriminate.
Qed.

Lemma rejoined_plain p sub :
  count_tuples p sub = 0 -> rejoined p sub = [process p <$> sub].
Proof. intros Hc. unfold rejoined. by rewrite first_tuple_None. Qed.

Lemma rejoined_length p sub :
  Forall (fun s => length s = length sub) (rejoined p sub).
Proof.
  unfold rejoined. destruct (first_tuple p sub) as [[k items]|].
  - apply Forall_fmap, Forall_forall. intros t _. simpl.
    by rewrite length_insert, length_fmap.
  - constructor; [by rewrite length_fmap | constructor].
Qed.

Lemma existsb_expands_false p (subs : list (list pyobj)) :
  (forall sub line, sub ∈ subs -> line ∈ sub -> is_tuple (process p line) = false) ->
  existsb (expands p) subs = false /\
  Forall (fun sub => count_tuples p sub = 0) subs.
Proof.
  induction subs as [|sub subs IH]; intros H; simpl; [by split |].
  assert (count_tuples p sub = 0) as Hc.
  { apply count_tuples_zero. intros line Hin. apply (H sub); [left | done]. }
  destruct IH as [-> IH2].
  { intros s l Hs Hl. apply (H s l); [by right | done]. }
  split; [| by constructor].
  apply expands_count in Hc. by rewrite Hc.
Qed.

Lemma concat_rejoined_plain p (subs : list (list pyobj)) :
  Forall (fun sub => count_tuples p sub = 0) subs ->
  concat (rejoined p <$> subs) =
    (fun sub : list pyobj => process p <$> sub) <$> subs.
Proof.
  induction 1 as [|sub subs Hc _ IH]; csimpl; [done |].
  by rewrite rejoined_plain, IH.
Qed.

(** ** The expansion law *)

Lemma lookup_insert_rejoined (new_lines : list pyobj) k v :
  k < length new_lines ->
  <[k := v]> new_lines !! k = Some v /\
  forall j, j <> k -> <[k := v]> new_lines !! j = new_lines !! j.
Proof.
  intros Hk. split.
  - by apply list_lookup_insert_eq.
  - intros j Hj. by apply list_lookup_insert_ne.
Qed.

(** C1. When the processor turns exactly one line of a sub-slide, the line
    at index [k], into a tuple of [M] variants, a call of [apply] that
    returns replaces that sub-slide by [M] sub-slides, in the order of the
    variants: sub-slide [i] is the processed lines with variant [i] at
    index [k], so each has the length of the old sub-slide.  The sub-slides
    before and after are replaced by what [apply] makes of them. *)
Theorem expansion_law (p : Processor) (self self' : Slide)
    (pre post : list (list pyobj)) (sub : list pyobj)
    (k : nat) (line : pyobj) (variants : list pyobj) :
  _sub_slides self = pre ++ sub :: post ->
  sub !! k = Some line ->
  process p line = Tuple variants ->
  (forall j l, sub !! j = Some l -> j <> k -> is_tuple (process p l) = false) ->
  apply p self = (Return tt, self') ->
  let new_lines := process p <$> sub in
  let news := (fun v => <[k := v]> new_lines) <$> variants in
  let lines := _slide_lines self in
  let flag := _override_transition self in
  exists pre' post',
    _sub_slides self' = pre' ++ news ++ post' /\
    _sub_slides (apply p (mkSlide lines pre flag)).2 = pre' /\
    _sub_slides (apply p (mkSlide lines post flag)).2 = post' /\
    length news = length variants /\
    Forall (fun s => length s = length sub) news /\
    (forall i v, variants !! i = Some v ->
       exists s, news !! i = Some s /\ s !! k = Some v /\
         forall j, j <> k -> s !! j = new_lines !! j).
Proof.
  intros Hsubs Hk Hp Hothers Happ new_lines news lines flag.
  pose proof (apply_Return_inv _ _ _ Happ) as Hall.
  rewrite apply_returns in Happ by done. injection Happ as <-.
  unfold at_most_one in Hall. rewrite Hsubs in Hall.
  apply Forall_app in Hall as [Hpre Hpost].
  apply Forall_cons in Hpost as [_ Hpost].
  destruct (first_tuple_unique p sub k line variants Hk Hp Hothers) as [Hf Hc].
  exists (concat (rejoined p <$> pre)), (concat (rejoined p <$> post)).
  assert (k < length new_lines) as Hlt.
  { unfold new_lines. rewrite length_fmap. by eapply lookup_lt_Some. }
  repeat split.
  - simpl. rewrite Hsubs, fmap_app, concat_app. csimpl.
    unfold rejoined at 2. by rewrite Hf.
  - by rewrite apply_returns.
  - by rewrite apply_returns.
  - unfold news. by rewrite length_fmap.
  - unfold news. apply Forall_fmap, Forall_forall. intros v _. simpl.
    unfold new_lines. by rewrite length_insert, length_fmap.
  - intros i v Hv. exists (<[k := v]> new_lines).
    unfold news. rewrite list_lookup_fmap, Hv. split; [done |].
    by apply lookup_insert_rejoined.
Qed.

Lemma expansion_law_witness :
  exists pre' post',
    _sub_slides (apply images captioned).2 =
      pre' ++
      [ [Str ("one" +:+ NL); Str ("caption" +:+ NL)];
        [Str ("two" +:+ NL); Str ("caption" +:+ NL)];
        [Str ("three" +:+ NL); Str ("caption" +:+ NL)] ] ++ post'.
Proof.
  destruct (expansion_law images captioned (apply images captioned).2
              [] [] [Str ("IMG:x" +:+ NL); Str ("caption" +:+ NL)]
              0 (Str ("IMG:x" +:+ NL))
              [Str ("one" +:+ NL); Str ("two" +:+ NL); Str ("three" +:+ NL)])
    as (pre' & post' & H & _).
  - reflexivity.
  - reflexivity.
  - reflexivity.
  - intros [|[|j]] l Hj Hne; [done | | done].
    injection Hj as <-. reflexivity.
  - reflexivity.
  - exists pre', post'. exact H.
Defined.

(** ** The error for two expansions in one sub-slide *)

Lemma at_most_one_indices p self :
  (forall sub i j a b, sub ∈ _sub_slides self ->
     sub !! i = Some a -> sub !! j = Some b ->
     is_tuple (process p a) = true -> is_tuple (process p b) = true -> i = j) ->
  at_most_one p self.
Proof.
  intros H. apply Forall_forall. intros sub Hsub.
  destruct (decide (count_tuples p sub <= 1)) as [? | Hc]; [done |].
  destruct (count_tuples_two_inv p sub) as (i & j & a & b & Hlt & Hi & Hj & Ha & Hb);
    [lia |].
  pose proof (H sub i j a b Hsub Hi Hj Ha Hb). lia.
Qed.

Lemma clash_indices p self sub i j a b :
  sub ∈ _sub_slides self -> sub !! i = Some a -> sub !! j = Some b -> i <> j ->
  is_tuple (process p a) = true -> is_tuple (process p b) = true ->
  clash p self.
Proof.
  intros Hsub Hi Hj Hne Ha Hb. apply Exists_exists. exists sub.
  split; [done |]. exact (count_tuples_two p sub i j a b Hi Hj Hne Ha Hb).
Qed.

(** C2. If the processor turns two distinct lines of one sub-slide into
    tuples, [apply] raises [SlideMachineError], and the message names the
    processor and ends with the lines the slide was built from, joined; if
    no sub-slide has two such lines, [apply] returns. *)
Theorem multiple_expansion_error (p : Processor) (self : Slide) :
  (forall (text : list string) sub i j a b,
     _slide_lines self = Str <$> text ->
     sub ∈ _sub_slides self ->
     sub !! i = Some a -> sub !! j = Some b -> i <> j ->
     is_tuple (process p a) = true -> is_tuple (process p b) = true ->
     (apply p self).1 =
       Raise (SlideMachineError
         ("Error in " +:+ processor_str p +:+ "."
          +:+ "A slide cannot contain more than one tag of the same "
          +:+ "type that expand into multiple slides." +:+ NL +:+ NL
          +:+ "Offending slide:" +:+ NL +:+ NL +:+ join_strs text))) /\
  ((forall sub i j a b, sub ∈ _sub_slides self ->
      sub !! i = Some a -> sub !! j = Some b ->
      is_tuple (process p a) = true -> is_tuple (process p b) = true -> i = j) ->
   (apply p self).1 = Return tt).
Proof.
  split.
  - intros text sub i j a b Htext Hsub Hi Hj Hne Ha Hb.
    rewrite apply_raises;
      [| exact (clash_indices p self sub i j a b Hsub Hi Hj Hne Ha Hb)].
    simpl. f_equal. by apply expansion_exn_text.
  - intros H. rewrite apply_returns; [done | by apply at_most_one_indices].
Qed.

Lemma multiple_expansion_error_witness :
  (apply images two_images).1 =
    Raise (SlideMachineError
      ("Error in images.A slide cannot contain more than one tag of the same "
       +:+ "type that expand into multiple slides." +:+ NL +:+ NL
       +:+ "Offending slide:" +:+ NL +:+ NL
       +:+ "IMG:x" +:+ NL +:+ "IMG:y" +:+ NL)) /\
  (apply images captioned).1 = Return tt.
Proof.
  split.
  - apply (proj1 (multiple_expansion_error images two_images)
             ["IMG:x" +:+ NL; "IMG:y" +:+ NL]
             [Str ("IMG:x" +:+ NL); Str ("IMG:y" +:+ NL)]
             0 1 (Str ("IMG:x" +:+ NL)) (Str ("IMG:y" +:+ NL)));
      try reflexivity.
    + apply list_elem_of_here.
    + lia.
  - apply (proj2 (multiple_expansion_error images captioned)).
    intros sub i j a b Hsub Hi Hj Ha Hb.
    apply list_elem_of_singleton in Hsub. subst sub.
    destruct i as [|[|i]], j as [|[|j]]; try done;
      simpl in Hi, Hj; simplify_eq; discriminate.
Defined.

(** ** Atomicity *)

(** C10. When [apply] raises, the slide is as it was before the call: the
    sub-slides and the flag are assigned only after the loops are over. *)
Theorem apply_atomic_on_error (p : Processor) (self self' : Slide) (e : exn) :
  apply p self = (Raise e, self') ->
  self' = self /\
  _sub_slides self' = _sub_slides self /\
  _override_transition self' = _override_transition self.
Proof.
  unfold apply, mbind, method_bind, get_self, lift.
  destruct (apply_sub_slides self p (_sub_slides self) [] false)
    as [[new_sub_slides expanded]|e0]; simpl.
  - destruct expanded; intros H; discriminate H.
  - intros H. injection H as _ <-. done.
Qed.

Lemma apply_atomic_on_error_witness :
  (apply images two_images).2 = two_images.
Proof.
  destruct (apply images two_images) as [o s] eqn:E.
  destruct o as [[]|e].
  - vm_compute in E. discriminate E.
  - exact (proj1 (apply_atomic_on_error images two_images s e E)).
Defined.

(** ** A pass that does not expand *)

(** C6. For a processor that never returns a tuple (it is enough that it
    returns none for the lines of this slide), [apply] returns, keeps the
    number of sub-slides and the length of each, turns line [i] of each
    sub-slide into [process] of that line, and leaves the flag (and the
    original lines) as they were. *)
Theorem non_expanding_pass (p : Processor) (self : Slide) :
  (forall sub line, sub ∈ _sub_slides self -> line ∈ sub ->
     is_tuple (process p line) = false) ->
  exists self',
    apply p self = (Return tt, self') /\
    self' = mkSlide (_slide_lines self)
              ((fun sub : list pyobj => process p <$> sub) <$> _sub_slides self)
              (_override_transition self) /\
    length (_sub_slides self') = length (_sub_slides self) /\
    (forall n sub, _sub_slides self !! n = Some sub ->
       exists sub', _sub_slides self' !! n = Some sub' /\
         length sub' = length sub /\
         forall i line, sub !! i = Some line -> sub' !! i = Some (process p line)) /\
    _override_transition self' = _override_transition self.
Proof.
  intros Hp.
  destruct (existsb_expands_false p (_sub_slides self) Hp) as [Hex Hzero].
  eexists. split; [| split; [reflexivity |]].
  - rewrite apply_returns.
    + rewrite Hex, orb_false_r. by rewrite concat_rejoined_plain.
    + eapply Forall_impl; [exact Hzero | simpl; lia].
  - simpl. split; [by rewrite length_fmap |]. split; [| done].
    intros n sub Hn. exists (process p <$> sub).
    rewrite list_lookup_fmap, Hn. split; [done |].
    split; [by rewrite length_fmap |].
    intros i line Hi. by rewrite list_lookup_fmap, Hi.
Qed.

Lemma non_expanding_pass_witness :
  exists self',
    apply plain captioned = (Return tt, self') /\
    _sub_slides self' = [[Str ("IMG:x" +:+ NL); Str ("caption" +:+ NL)]].
Proof.
  destruct (non_expanding_pass plain captioned) as (self' & Happ & -> & _).
  - intros sub line Hsub Hline.
    apply list_elem_of_singleton in Hsub. subst sub.
    apply elem_of_cons in Hline as [-> | Hline]; [reflexivity |].
    apply list_elem_of_singleton in Hline. by subst line.
  - eexists. split; [exact Happ | reflexivity].
Defined.

(** ** The flag [_override_transition] *)

Lemma apply_flag_monotone p self :
  _override_transition self = true ->
  _override_transition (apply p self).2 = true.
Proof.
  intros Hflag. destruct (at_most_one_or_clash p self) as [H | H].
  - rewrite apply_returns by done. simpl. by rewrite Hflag.
  - by rewrite apply_raises.
Qed.

Lemma calls_flag_monotone ps self :
  _override_transition self = true ->
  _override_transition (calls ps self) = true.
Proof.
  unfold calls. revert self. induction ps as [|p ps IH]; intros self Hflag; simpl.
  - done.
  - apply IH. by apply apply_flag_monotone.
Qed.

(** C4. The flag is false in a new slide; a call of [apply] that returns
    and in which a line of a sub-slide became a tuple leaves it true; once
    true it is true after every later call of [apply], whatever the call
    does. *)
Theorem override_transition_sticky :
  (forall slide_lines, _override_transition (Slide_init slide_lines) = false) /\
  (forall p self self' sub line,
     apply p self = (Return tt, self') ->
     sub ∈ _sub_slides self -> line ∈ sub ->
     is_tuple (process p line) = true ->
     _override_transition self' = true) /\
  (forall ps self,
     _override_transition self = true ->
     _override_transition (calls ps self) = true).
Proof.
  split; [done |]. split.
  - intros p self self' sub line Happ Hsub Hline Ht.
    pose proof (apply_Return_inv _ _ _ Happ) as Hall.
    rewrite apply_returns in Happ by done. injection Happ as <-. simpl.
    assert (existsb (expands p) (_sub_slides self) = true) as ->.
    { apply existsb_exists. exists sub. split; [by apply list_elem_of_In |].
      apply expands_true. by exists line. }
    by rewrite orb_true_r.
  - apply calls_flag_monotone.
Qed.

Lemma override_transition_sticky_witness :
  _override_transition (apply images captioned).2 = true /\
  _override_transition (calls [images; first_only; plain] captioned) = true /\
  length (_sub_slides (calls [images; first_only; plain] captioned)) = 1.
Proof.
  destruct override_transition_sticky as (_ & Hset & Hkeep).
  assert (_override_transition (apply images captioned).2 = true) as Hflag.
  { apply (Hset images captioned (apply images captioned).2
             [Str ("IMG:x" +:+ NL); Str ("caption" +:+ NL)]
             (Str ("IMG:x" +:+ NL))).
    - reflexivity.
    - apply list_elem_of_here.
    - apply list_elem_of_here.
    - reflexivity. }
  split; [exact Hflag |]. split; [| reflexivity].
  exact (Hkeep [first_only; plain] (apply images captioned).2 Hflag).
Defined.

(** ** Tuples of length one *)

Lemma rejoined_at p sub k line items :
  count_tuples p sub <= 1 ->
  sub !! k = Some line -> process p line = Tuple items ->
  first_tuple p sub = Some (k, items) /\ count_tuples p sub = 1.
Proof.
  intros Hc Hk Hp. apply (first_tuple_unique p sub k line items Hk Hp).
  intros j l Hj Hne. destruct (is_tuple (process p l)) eqn:Hl; [| done].
  assert (2 <= count_tuples p sub); [| lia].
  apply (count_tuples_two p sub j k l line Hj Hk Hne Hl). by rewrite Hp.
Qed.

Lemma rejoined_count p (subs : list (list pyobj)) :
  Forall (fun sub => count_tuples p sub <= 1) subs ->
  (forall sub line items, sub ∈ subs -> line ∈ sub ->
     process p line = Tuple items -> length items = 1) ->
  length (concat (rejoined p <$> subs)) = length subs.
Proof.
  induction 1 as [|sub subs Hc _ IH]; intros Hone; csimpl; [done |].
  rewrite length_app, IH.
  2:{ intros s l items Hs. apply Hone. by right. }
  assert (length (rejoined p sub) = 1) as ->; [| done].
  destruct (count_tuples p sub) as [|n] eqn:Hn.
  - by rewrite rejoined_plain.
  - destruct (first_tuple_Some p sub) as (k & line & items & Hf & Hk & Hp); [lia |].
    unfold rejoined. rewrite Hf, length_fmap.
    apply (Hone sub line items); [by left | | done].
    by eapply list_elem_of_lookup_2.
Qed.

(** C5. A tuple of length one is an expansion: in a call of [apply] that
    returns, the loop over the lines records its index in [expanded_line]
    and sets [processor_expanded_slide], the sub-slide goes through the
    rejoining branch and comes out as exactly one sub-slide, and the flag
    is true afterwards; when every tuple of the pass has length one the
    number of sub-slides is unchanged.  A line for which the processor
    returns no tuple does not count: [expanded_line] stays [-1] and the flag
    is as before. *)
Theorem length_one_expansion (p : Processor) (self self' : Slide) :
  apply p self = (Return tt, self') ->
  (forall pre sub post k line v,
     _sub_slides self = pre ++ sub :: post ->
     sub !! k = Some line -> process p line = Tuple [v] ->
     let new_lines := process p <$> sub in
     _override_transition self' = true /\
     (forall b, apply_lines self p sub 0 [] (-1) b =
                  Return (new_lines, Z.of_nat k, true)) /\
     apply_rejoin new_lines (Z.of_nat k) [] = Return [<[k := v]> new_lines] /\
     _sub_slides self' =
       concat (rejoined p <$> pre) ++ [<[k := v]> new_lines] ++
       concat (rejoined p <$> post)) /\
  ((forall sub line items, sub ∈ _sub_slides self -> line ∈ sub ->
      process p line = Tuple items -> length items = 1) ->
   length (_sub_slides self') = length (_sub_slides self)) /\
  ((forall sub line, sub ∈ _sub_slides self -> line ∈ sub ->
      is_tuple (process p line) = false) ->
   _override_transition self' = _override_transition self /\
   forall sub b, sub ∈ _sub_slides self ->
     apply_lines self p sub 0 [] (-1) b = Return (process p <$> sub, (-1)%Z, b)).
Proof.
  intros Happ. pose proof (apply_Return_inv _ _ _ Happ) as Hall.
  rewrite apply_returns in Happ by done. injection Happ as <-.
  split; [| split].
  - intros pre sub post k line v Hsubs Hk Hp new_lines.
    unfold at_most_one in Hall. rewrite Hsubs in Hall.
    apply Forall_app in Hall as [_ Hsub].
    apply Forall_cons in Hsub as [Hsub _].
    destruct (rejoined_at p sub k line [v] Hsub Hk Hp) as [Hf Hc].
    assert (new_lines !! k = Some (Tuple [v])) as Hnk.
    { unfold new_lines. by rewrite list_lookup_fmap, Hk; csimpl; rewrite Hp. }
    repeat split.
    + simpl. rewrite Hsubs, existsb_app. simpl.
      assert (expands p sub = true) as ->.
      { apply expands_true. exists line. split.
        - by eapply list_elem_of_lookup_2.
        - by rewrite Hp. }
      simpl. by rewrite !orb_true_r.
    + intros b. by rewrite (apply_lines_one self p sub 0 [] (-1) b k [v]).
    + by rewrite (apply_rejoin_expanded new_lines k [v]).
    + simpl. rewrite Hsubs, fmap_app, concat_app. csimpl.
      unfold rejoined at 2. by rewrite Hf.
  - intros Hone. simpl. by apply rejoined_count.
  - intros Hnone.
    destruct (existsb_expands_false p (_sub_slides self) Hnone) as [Hex Hzero].
    split; [simpl; by rewrite Hex, orb_false_r |].
    intros sub b Hsub. rewrite apply_lines_none; [done |].
    by eapply Forall_forall in Hzero.
Qed.

Lemma length_one_expansion_witness :
  _override_transition (apply single captioned).2 = true /\
  _sub_slides (apply single captioned).2 =
    [[Str ("one" +:+ NL); Str ("caption" +:+ NL)]] /\
  length (_sub_slides (apply single captioned).2) = 1 /\
  _override_transition (apply plain captioned).2 = false.
Proof.
  destruct (length_one_expansion single captioned (apply single captioned).2
              eq_refl) as (Hexp & Hcount & _).
  destruct (length_one_expansion plain captioned (apply plain captioned).2
              eq_refl) as (_ & _ & Hplain).
  destruct (Hexp [] [Str ("IMG:x" +:+ NL); Str ("caption" +:+ NL)] [] 0
              (Str ("IMG:x" +:+ NL)) (Str ("one" +:+ NL))
              eq_refl eq_refl eq_refl) as (Hflag & _ & _ & Hsubs).
  split; [exact Hflag |]. split; [exact Hsubs |]. split.
  - apply Hcount. intros sub line items Hsub Hline Hp.
    apply list_elem_of_singleton in Hsub. subst sub.
    apply elem_of_cons in Hline as [-> | Hline].
    + injection Hp as <-. reflexivity.
    + apply list_elem_of_singleton in Hline. subst line. discriminate Hp.
  - apply Hplain. intros sub line Hsub Hline.
    apply list_elem_of_singleton in Hsub. subst sub.
    apply elem_of_cons in Hline as [-> | Hline]; [reflexivity |].
    apply list_elem_of_singleton in Hline. by subst line.
Defined.

(** ** Rendering *)

Lemma append_cons (c : ascii) (a b : string) :
  String c a +:+ b = String c (a +:+ b).
Proof. reflexivity. Qed.

Lemma has_char_app c a b : has_char c (a +:+ b) = has_char c a || has_char c b.
Proof.
  induction a as [|x a IH]; [reflexivity |].
  rewrite append_cons. simpl. by rewrite IH, orb_assoc.
Qed.

Lemma split_from_pieces sep piece s :
  has_char sep piece = false ->
  Forall (fun m => has_char sep m = false) (split_from sep piece s).
Proof.
  revert piece. induction s as [|c s IH]; intros piece Hp; simpl.
  - by constructor.
  - destruct (Ascii.eqb c sep) eqn:Hc.
    + constructor; [done | by apply IH].
    + apply IH. rewrite has_char_app, Hp. simpl. by rewrite Hc.
Qed.

Lemma split_from_cons sep piece s :
  exists m ms, split_from sep piece s = m :: ms.
Proof.
  revert piece. induction s as [|c s IH]; intros piece; simpl; [by eauto |].
  destruct (Ascii.eqb c sep); [by eauto | apply IH].
Qed.

Lemma split_from_join sep piece s :
  join_with (String sep EmptyString) (split_from sep piece s) = piece +:+ s.
Proof.
  revert piece. induction s as [|c s IH]; intros piece; simpl.
  - by rewrite append_nil_r.
  - destruct (Ascii.eqb_spec c sep) as [-> | Hne].
    + specialize (IH EmptyString).
      destruct (split_from_cons sep EmptyString s) as (m & ms & E).
      rewrite E.
      change (piece +:+ String sep EmptyString
              +:+ join_with (String sep EmptyString) (m :: ms)
              = piece +:+ String sep s).
      rewrite <- E, IH. reflexivity.
    + rewrite IH, append_assoc. reflexivity.
Qed.

Lemma split_lines s :
  Forall (fun m => has_char nl m = false) (split nl s) /\
  join_with NL (split nl s) = s.
Proof.
  split.
  - by apply split_from_pieces.
  - unfold split, NL. by rewrite split_from_join.
Qed.

Lemma rstrip_empty s : rstrip s = EmptyString <-> all_space s = true.
Proof.
  induction s as [|c s IH]; simpl; [done |].
  destruct (rstrip s) eqn:E.
  - destruct (isspace c); simpl.
    + split; [intros _; by apply IH | done].
    + split; discriminate.
  - split; [discriminate |]. intros [_ H]%andb_true_iff.
    apply IH in H. discriminate H.
Qed.

(** [rstrip] removes a suffix of whitespace, and what is left does not end
    with whitespace. *)
Lemma rstrip_spec s :
  (exists w, s = rstrip s +:+ w /\ all_space w = true) /\
  (forall t c, rstrip s = t +:+ String c EmptyString -> isspace c = false).
Proof.
  induction s as [|c s [(w & Hw & Hsp) IH]]; simpl.
  - split; [by exists EmptyString |]. intros [|x t] c H; discriminate H.
  - destruct (rstrip s) as [|y r] eqn:E.
    + destruct (isspace c) eqn:Hc.
      * split.
        -- exists (String c s). split; [done |]. simpl. rewrite Hc. simpl.
           by apply rstrip_empty.
        -- intros [|x t] c' H; discriminate H.
      * split.
        -- exists s. split; [done |]. by apply rstrip_empty.
        -- intros [|x [|x' t]] c' H; try discriminate H.
           by injection H as <-.
    + split.
      * exists w. split; [| done]. rewrite append_cons. by rewrite <- Hw.
      * intros [|x t] c' H; rewrite ?append_cons in H.
        -- discriminate H.
        -- injection H as -> H. by apply (IH t c').
Qed.

Lemma html_sub_slides_text md self (text : list (list string)) out :
  html_sub_slides md self ((fun sub : list string => Str <$> sub) <$> text) out =
    Return (out ++ (wrap md (_override_transition self) <$> text)).
Proof.
  revert out. induction text as [|sub text IH]; intros out; csimpl.
  - by rewrite app_nil_r.
  - rewrite join_Str. cbn [mbind outcome_bind]. rewrite IH.
    by rewrite <- app_assoc.
Qed.

(** C7. The html of a slide whose sub-slides hold lines of text: each
    sub-slide, in order, is joined, rendered by the markdown renderer, split
    into lines, each line prefixed with two spaces, the whole stripped of
    trailing whitespace and put between the opening tag and the closing tag
    followed by an empty line; the blocks are joined.  The opening tag has
    the attribute [data-transition="none"] exactly when the flag is true. *)
Theorem html_format (md : string -> string) (lines : list pyobj)
    (text : list (list string)) (flag : bool) :
  html md (mkSlide lines ((fun sub : list string => Str <$> sub) <$> text) flag) =
    Return (join_strs (wrap md flag <$> text)) /\
  (forall sub,
     wrap md flag sub =
       opening flag
       +:+ rstrip (join_strs ((fun m => "  " +:+ m +:+ NL)
                                <$> split nl (md (join_strs sub))))
       +:+ NL +:+ "</section>" +:+ NL +:+ NL) /\
  (forall block,
     Forall (fun m => has_char nl m = false) (split nl block) /\
     join_with NL (split nl block) = block) /\
  (forall block,
     (exists w, block = rstrip block +:+ w /\ all_space w = true) /\
     (forall t c, rstrip block = t +:+ String c EmptyString -> isspace c = false)) /\
  opening true = "<section " +:+ no_transition_attribute +:+ ">" +:+ NL /\
  opening false = "<section>" +:+ NL /\
  contains no_transition_attribute (opening flag) = flag.
Proof.
  split; [| split; [| split; [| split; [| split; [| split]]]]].
  - unfold html. simpl. rewrite html_sub_slides_text. reflexivity.
  - reflexivity.
  - apply split_lines.
  - apply rstrip_spec.
  - reflexivity.
  - reflexivity.
  - by destruct flag.
Qed.

(** ** Splitting the document into slides *)

Section Splitting.

Context (search : string -> bool).

Lemma _read_md_file_finish content :
  _read_md_file search content = finish (read_lines search content [] []).
Proof.
  unfold _read_md_file, finish.
  by destruct (read_lines search content [] []).
Qed.

Lemma read_lines_app x y slides slide_content :
  read_lines search (x ++ y) slides slide_content =
    let '(slides', slide_content') := read_lines search x slides slide_content in
    read_lines search y slides' slide_content'.
Proof.
  revert slides slide_content.
  induction x as [|line x IH]; intros slides slide_content; simpl; [done |].
  destruct (search line); apply IH.
Qed.

Lemma read_lines_slides content slides slide_content :
  finish (read_lines search content slides slide_content) =
    slides ++ finish (read_lines search content [] slide_content).
Proof.
  revert slides slide_content.
  induction content as [|line content IH]; intros slides slide_content; simpl.
  - done.
  - destruct (search line).
    + rewrite IH. rewrite (IH [Slide_init slide_content]).
      by rewrite <- app_assoc.
    + apply IH.
Qed.

Lemma read_lines_no_break a slides slide_content :
  Forall (fun l => search l = false) a ->
  read_lines search a slides slide_content =
    (slides, slide_content ++ (Str <$> a)).
Proof.
  intros Ha. revert slide_content.
  induction Ha as [|line a Hline _ IH]; intros slide_content; csimpl.
  - by rewrite app_nil_r.
  - rewrite Hline, IH. by rewrite <- app_assoc.
Qed.

Lemma _read_md_file_first a d rest :
  Forall (fun l => search l = false) a -> search d = true ->
  _read_md_file search (a ++ d :: rest) =
    Slide_init (Str <$> a) :: _read_md_file search rest.
Proof.
  intros Ha Hd. rewrite !_read_md_file_finish.
  rewrite read_lines_app, read_lines_no_break by done. simpl.
  rewrite Hd. by rewrite read_lines_slides.
Qed.

Lemma _read_md_file_length content :
  length (_read_md_file search content) =
    length (filter (fun l => search l = true) content) + 1.
Proof.
  rewrite _read_md_file_finish. generalize (@nil pyobj).
  induction content as [|line content IH]; intros slide_content; simpl.
  - done.
  - destruct (search line) eqn:Hline.
    + rewrite read_lines_slides, length_app, IH.
      rewrite filter_cons_True by done. simpl. lia.
    + rewrite IH. by rewrite filter_cons_False by congruence.
Qed.

Lemma _read_md_file_lines content :
  concat (_slide_lines <$> _read_md_file search content) =
    Str <$> filter (fun l => search l = false) content.
Proof.
  rewrite _read_md_file_finish.
  change (Str <$> filter (fun l => search l = false) content)
    with ([] ++ (Str <$> filter (fun l => search l = false) content)).
  generalize (@nil pyobj).
  induction content as [|line content IH]; intros slide_content; csimpl.
  - reflexivity.
  - destruct (search line) eqn:Hline.
    + rewrite read_lines_slides, fmap_app, concat_app, IH. csimpl.
      rewrite filter_cons_False by congruence.
      unfold deepcopy. by rewrite app_nil_r.
    + rewrite IH. rewrite filter_cons_True by done. csimpl.
      by rewrite <- app_assoc.
Qed.

(** C3. The number of slides is the number of delimiter lines plus one;
    the slides are the runs of lines between the delimiters, which are
    dropped; without a delimiter there is one slide with all the lines;
    a delimiter at the start or at the end gives a slide without lines
    there, and the html of such a slide is one section, not an error. *)
Theorem splitting (md : string -> string) (content : list string) :
  let slides := _read_md_file search content in
  length slides = length (filter (fun l => search l = true) content) + 1 /\
  (forall a d rest,
     content = a ++ d :: rest ->
     Forall (fun l => search l = false) a -> search d = true ->
     slides = Slide_init (Str <$> a) :: _read_md_file search rest) /\
  concat (_slide_lines <$> slides) =
    Str <$> filter (fun l => search l = false) content /\
  (Forall (fun l => search l = false) content ->
     slides = [Slide_init (Str <$> content)]) /\
  (forall d rest, content = d :: rest -> search d = true ->
     head slides = Some (Slide_init [])) /\
  (forall rest d, content = rest ++ [d] -> search d = true ->
     last slides = Some (Slide_init [])) /\
  html md (Slide_init []) =
    Return ("<section>" +:+ NL +:+ rstrip (indent (md EmptyString))
            +:+ NL +:+ "</section>" +:+ NL +:+ NL) /\
  (md EmptyString = EmptyString ->
     html md (Slide_init []) =
       Return ("<section>" +:+ NL +:+ NL +:+ "</section>" +:+ NL +:+ NL)).
Proof.
  intros slides. unfold slides.
  split; [apply _read_md_file_length |].
  split; [by intros a d rest -> Ha Hd; apply _read_md_file_first |].
  split; [apply _read_md_file_lines |].
  split.
  { intros Hall. rewrite _read_md_file_finish.
    by rewrite read_lines_no_break. }
  split.
  { intros d rest -> Hd.
    change (d :: rest) with ([] ++ d :: rest).
    by rewrite (_read_md_file_first [] d rest). }
  split.
  { intros rest d -> Hd. rewrite _read_md_file_finish, read_lines_app.
    destruct (read_lines search rest [] []) as [slides' slide_content'].
    simpl. rewrite Hd. unfold finish. simpl. by rewrite last_snoc. }
  assert (html md (Slide_init []) =
            Return ("<section>" +:+ NL +:+ rstrip (indent (md EmptyString))
                    +:+ NL +:+ "</section>" +:+ NL +:+ NL)) as Hhtml.
  { change (Slide_init [])
      with (mkSlide [] ((fun sub : list string => Str <$> sub) <$> [[]]) false).
    unfold html.
    cbn [_sub_slides]. rewrite html_sub_slides_text.
    cbn [mbind outcome_bind]. f_equal. csimpl.
    rewrite append_nil_r. unfold wrap, opening, section_plain. simpl.
    by rewrite append_assoc. }
  split; [exact Hhtml |].
  intros Hmd. rewrite Hhtml, Hmd. reflexivity.
Qed.

End Splitting.

Lemma splitting_witness :
  _read_md_file (contains default_slide_break)
    ["A" +:+ NL; ">>>" +:+ NL; "B" +:+ NL; "C" +:+ NL] =
    [Slide_init [Str ("A" +:+ NL)];
     Slide_init [Str ("B" +:+ NL); Str ("C" +:+ NL)]] /\
  _read_md_file (contains default_slide_break) ["A" +:+ NL; "B" +:+ NL] =
    [Slide_init [Str ("A" +:+ NL); Str ("B" +:+ NL)]] /\
  head (_read_md_file (contains default_slide_break) [">>>" +:+ NL; "A" +:+ NL]) =
    Some (Slide_init []) /\
  last (_read_md_file (contains default_slide_break) ["A" +:+ NL; ">>>" +:+ NL]) =
    Some (Slide_init []) /\
  html (fun text => text) (Slide_init []) =
    Return ("<section>" +:+ NL +:+ NL +:+ "</section>" +:+ NL +:+ NL).
Proof.
  split; [| split; [| split; [| split]]].
  - destruct (splitting (contains default_slide_break) (fun text => text)
                ["A" +:+ NL; ">>>" +:+ NL; "B" +:+ NL; "C" +:+ NL])
      as (_ & Hfirst & _).
    rewrite (Hfirst ["A" +:+ NL] (">>>" +:+ NL) ["B" +:+ NL; "C" +:+ NL]).
    + reflexivity.
    + reflexivity.
    + by repeat constructor.
    + reflexivity.
  - destruct (splitting (contains default_slide_break) (fun text => text)
                ["A" +:+ NL; "B" +:+ NL])
      as (_ & _ & _ & Hnone & _).
    apply Hnone. by repeat constructor.
  - destruct (splitting (contains default_slide_break) (fun text => text)
                [">>>" +:+ NL; "A" +:+ NL])
      as (_ & _ & _ & _ & Hhead & _).
    by apply (Hhead (">>>" +:+ NL) ["A" +:+ NL]).
  - destruct (splitting (contains default_slide_break) (fun text => text)
                ["A" +:+ NL; ">>>" +:+ NL])
      as (_ & _ & _ & _ & _ & Hlast & _).
    by apply (Hlast ["A" +:+ NL] (">>>" +:+ NL)).
  - destruct (splitting (contains default_slide_break) (fun text => text) [])
      as (_ & _ & _ & _ & _ & _ & _ & Hempty).
    by apply Hempty.
Defined.

(** ** The property [markdown] *)

Lemma getattr_missing self :
  getattr self "_original_slide_lines" = Raise AttributeError.
Proof.
  unfold getattr, instance_dict.
  rewrite !lookup_insert_ne by done. by rewrite lookup_singleton_ne.
Qed.

(** C8. [Slide.markdown] reads the attribute [_original_slide_lines], which
    no slide has: [__init__] stores the lines as [_slide_lines].  So the
    property raises [AttributeError] for every slide, where the joined
    lines of the slide were meant. *)
Theorem markdown_attribute_error :
  (forall self, markdown self = Raise AttributeError) /\
  markdown (Slide_init [Str ("A" +:+ NL)]) = Raise AttributeError /\
  join (_slide_lines (Slide_init [Str ("A" +:+ NL)])) = Return ("A" +:+ NL).
Proof.
  split; [| split].
  - intros self. unfold markdown. by rewrite getattr_missing.
  - unfold markdown. by rewrite getattr_missing.
  - reflexivity.
Qed.

(** ** The original lines *)

Lemma apply_Raise_state p self e self' :
  apply p self = (Raise e, self') -> self' = self.
Proof.
  unfold apply, mbind, method_bind, get_self, lift.
  destruct (apply_sub_slides self p (_sub_slides self) [] false)
    as [[new_sub_slides expanded]|e0]; simpl.
  - destruct expanded; intros H; discriminate H.
  - intros H. by injection H as _ <-.
Qed.

Lemma apply_slide_lines p self :
  _slide_lines (apply p self).2 = _slide_lines self.
Proof.
  destruct (at_most_one_or_clash p self) as [H | H].
  - by rewrite apply_returns.
  - by rewrite apply_raises.
Qed.

Lemma calls_slide_lines ps self :
  _slide_lines (calls ps self) = _slide_lines self.
Proof.
  unfold calls. revert self. induction ps as [|p ps IH]; intros self; simpl.
  - done.
  - by rewrite IH, apply_slide_lines.
Qed.

Lemma alloc_fresh (st : gmap nat (list pyobj)) v :
  (Store.alloc st v).1 ∉ dom st.
Proof. apply is_fresh. Qed.

Lemma alloc_new (st : gmap nat (list pyobj)) v :
  (Store.alloc st v).2 !! (Store.alloc st v).1 = Some v.
Proof. apply lookup_insert_eq. Qed.

Lemma alloc_old (st : gmap nat (list pyobj)) v l :
  l ∈ dom st -> (Store.alloc st v).2 !! l = st !! l.
Proof.
  intros Hl. unfold Store.alloc. simpl. apply lookup_insert_ne.
  intros <-. by apply (is_fresh (dom st)).
Qed.

Lemma alloc_dom (st : gmap nat (list pyobj)) v :
  dom st ⊆ dom (Store.alloc st v).2.
Proof. unfold Store.alloc. simpl. rewrite dom_insert_L. set_solver. Qed.

Lemma read_all_ext (st st' : gmap nat (list pyobj)) refs :
  Forall (fun r => st' !! r = st !! r) refs ->
  Store.read_all st' refs = Store.read_all st refs.
Proof.
  induction 1 as [|r refs Hr _ IH]; simpl; [done |]. by rewrite Hr, IH.
Qed.

Lemma alloc_all_spec (st : gmap nat (list pyobj)) vs :
  Store.read_all (Store.alloc_all st vs).2 (Store.alloc_all st vs).1 = Some vs /\
  Forall (fun r => r ∉ dom st) (Store.alloc_all st vs).1 /\
  dom st ⊆ dom (Store.alloc_all st vs).2 /\
  (forall l, l ∈ dom st -> (Store.alloc_all st vs).2 !! l = st !! l).
Proof.
  revert st. induction vs as [|v vs IH]; intros st; cbn [Store.alloc_all].
  - repeat split; done.
  - pose proof (alloc_fresh st v) as Hfresh.
    pose proof (alloc_new st v) as Hnew.
    pose proof (alloc_old st v) as Hold.
    pose proof (alloc_dom st v) as Hdom.
    destruct (Store.alloc st v) as [l st1]. simpl in *.
    specialize (IH st1).
    destruct (Store.alloc_all st1 vs) as [ls st2]. simpl in *.
    destruct IH as (Hread & Hrefs & Hsub & Hkeep).
    assert (l ∈ dom st1) as Hl by (apply elem_of_dom; eauto).
    repeat split.
    + rewrite (Hkeep l Hl), Hnew. simpl. by rewrite Hread.
    + constructor; [done |].
      eapply Forall_impl; [exact Hrefs |]. simpl. set_solver.
    + set_solver.
    + intros l' Hl'. rewrite Hkeep by set_solver. by apply Hold.
Qed.

Lemma read_inv (st : gmap nat (list pyobj)) o self :
  Store.read st o = Some self ->
  st !! Store.lines_ref o = Some (_slide_lines self) /\
  Store.read_all st (Store.sub_slide_refs o) = Some (_sub_slides self) /\
  Store.override o = _override_transition self.
Proof.
  unfold Store.read. intros H.
  destruct (st !! Store.lines_ref o) as [lines|]; simpl in H; [| done].
  destruct (Store.read_all st (Store.sub_slide_refs o)) as [subs|];
    simpl in H; [| done].
  by injection H as <-.
Qed.

Lemma owned_write st0 st o self l v :
  owned st0 st o self -> l ∈ dom st0 -> owned st0 (<[l := v]> st) o self.
Proof.
  intros (Hdom & Hlines & Hsubs & Hread) Hl.
  repeat split; [rewrite dom_insert_L; set_solver | done | done |].
  unfold Store.read. rewrite lookup_insert_ne by (intros ->; done).
  rewrite (read_all_ext st); [exact Hread |].
  eapply Forall_impl; [exact Hsubs |]. simpl. intros r Hr.
  apply lookup_insert_ne. by intros ->.
Qed.

Lemma owned_apply st0 st o self p :
  owned st0 st o self ->
  exists out o' st',
    Store.apply p st o = Some (out, o', st') /\
    Store.lines_ref o' = Store.lines_ref o /\
    owned st0 st' o' (apply p self).2.
Proof.
  intros (Hdom & Hlines & Hsubs & Hread).
  destruct (read_inv _ _ _ Hread) as (Hl & Hs & Hf).
  unfold Store.apply. rewrite Hread. simpl.
  pose proof (apply_slide_lines p self) as Hframe.
  destruct (apply p self) as [[[]|e] self'] eqn:Happ; simpl in *.
  - destruct (alloc_all_spec st (_sub_slides self')) as (Hr & Hrefs & Hsub & Hkeep).
    destruct (Store.alloc_all st (_sub_slides self')) as [refs st'].
    simpl in *. eexists _, _, _. split; [reflexivity |]. split; [done |].
    repeat split; simpl.
    + set_solver.
    + done.
    + eapply Forall_impl; [exact Hrefs |]. simpl. set_solver.
    + unfold Store.read. simpl.
      rewrite Hkeep by (apply elem_of_dom; eauto).
      rewrite Hl, Hr. simpl. rewrite <- Hframe. by destruct self'.
  - apply apply_Raise_state in Happ. subst self'.
    eexists _, _, _. split; [reflexivity |]. split; [done |].
    by repeat split.
Qed.

Lemma owned_run st0 steps :
  Forall (Store.caller_step st0) steps ->
  forall st o self, owned st0 st o self ->
  exists o' st',
    Store.run steps o st = Some (o', st') /\
    Store.lines_ref o' = Store.lines_ref o /\
    owned st0 st' o' (calls (Store.processors_of steps) self).
Proof.
  induction 1 as [|s steps Hs _ IH]; intros st o self Hown; simpl.
  - by exists o, st.
  - destruct s as [l v | p]; simpl in Hs.
    + apply (IH _ o self). by apply owned_write.
    + destruct (owned_apply st0 st o self p Hown)
        as (out & o1 & st1 & Happ & Href & Hown1).
      rewrite Happ. simpl.
      destruct (IH st1 o1 _ Hown1) as (o' & st' & Hrun & Href' & Hown').
      exists o', st'. split; [done |]. split; [congruence | done].
Qed.

Lemma owned_init (st : gmap nat (list pyobj)) a ls :
  st !! a = Some ls ->
  exists o st1,
    Store.Slide_init st a = Some (o, st1) /\
    owned st st1 o (Slide_init ls).
Proof.
  intros Ha. unfold Store.Slide_init, Store.deepcopy.
  rewrite Ha. cbn [mbind option_bind].
  pose proof (alloc_fresh st ls) as Hfresh.
  pose proof (alloc_new st ls) as Hnew.
  pose proof (alloc_dom st ls) as Hdom.
  destruct (Store.alloc st ls) as [l1 st1]. cbn [fst snd] in *.
  rewrite Hnew. cbn [mbind option_bind].
  pose proof (alloc_fresh st1 ls) as Hfresh2.
  pose proof (alloc_new st1 ls) as Hnew2.
  pose proof (alloc_old st1 ls l1) as Hold2.
  pose proof (alloc_dom st1 ls) as Hdom2.
  destruct (Store.alloc st1 ls) as [l2 st2]. cbn [fst snd] in *.
  eexists _, _. split; [reflexivity |].
  repeat split; simpl.
  - set_solver.
  - done.
  - constructor; [set_solver | constructor].
  - unfold Store.read. simpl.
    rewrite Hold2 by (apply elem_of_dom; eauto).
    rewrite Hnew, Hnew2. reflexivity.
Qed.

(** C9. The lines a slide was built from stay as they were: [apply]
    assigns only [_sub_slides] and [_override_transition], whether it
    returns or raises; and since [__init__] copies the list it is given,
    what the caller does later to that list (or to any list it had) does
    not reach the slide, through any sequence of such changes and calls of
    [apply]. *)
Theorem original_lines_immutable :
  (forall p self, _slide_lines (apply p self).2 = _slide_lines self) /\
  (forall ps slide_lines,
     _slide_lines (calls ps (Slide_init slide_lines)) = slide_lines) /\
  (forall (st : gmap nat (list pyobj)) a ls,
     st !! a = Some ls ->
     exists o st1,
       Store.Slide_init st a = Some (o, st1) /\
       forall steps, Forall (Store.caller_step st) steps ->
         exists o' st',
           Store.run steps o st1 = Some (o', st') /\
           Store.lines_ref o' = Store.lines_ref o /\
           st' !! Store.lines_ref o' = Some ls /\
           Store.read st' o' =
             Some (calls (Store.processors_of steps) (Slide_init ls))).
Proof.
  split; [apply apply_slide_lines |]. split.
  - intros ps slide_lines. by rewrite calls_slide_lines.
  - intros st a ls Ha.
    destruct (owned_init st a ls Ha) as (o & st1 & Hinit & Hown).
    exists o, st1. split; [done |]. intros steps Hsteps.
    destruct (owned_run st steps Hsteps st1 o _ Hown)
      as (o' & st' & Hrun & Href & Hown').
    exists o', st'. split; [done |]. split; [done |].
    destruct Hown' as (_ & _ & _ & Hread). split; [| done].
    destruct (read_inv _ _ _ Hread) as (Hl & _).
    by rewrite Hl, calls_slide_lines.
Qed.

Lemma original_lines_immutable_witness :
  exists o st1,
    Store.Slide_init {[ 0 := [Str ("A" +:+ NL)] ]} 0 = Some (o, st1) /\
    exists o' st',
      Store.run [Store.CallerWrite 0 [Str "changed"]; Store.Apply images;
                 Store.CallerWrite 0 []] o st1 = Some (o', st') /\
      st' !! Store.lines_ref o' = Some [Str ("A" +:+ NL)].
Proof.
  destruct original_lines_immutable as (_ & _ & H).
  destruct (H {[ 0 := [Str ("A" +:+ NL)] ]} 0 [Str ("A" +:+ NL)])
    as (o & st1 & Hinit & Hsteps).
  - apply lookup_singleton_eq.
  - exists o, st1. split; [exact Hinit |].
    destruct (Hsteps [Store.CallerWrite 0 [Str "changed"]; Store.Apply images;
                      Store.CallerWrite 0 []])
      as (o' & st' & Hrun & _ & Hlines & _).
    + repeat constructor; simpl; rewrite dom_singleton_L; set_solver.
    + exists o', st'. by split.
Defined.

(** ** Slides of text

    A slide built from lines of text holds lines of text in its sub-slides
    as long as the tuples of the processors hold lines of text: the one
    tuple among the processed lines of a sub-slide is replaced by its
    items. *)

Lemma textual_text (subs : list (list pyobj)) :
  textual subs ->
  exists text : list (list string),
    subs = (fun sub : list string => Str <$> sub) <$> text.
Proof.
  induction 1 as [|sub subs Hsub _ (text & ->)].
  - by exists [].
  - assert (exists t : list string, sub = Str <$> t) as (t & ->).
    { induction Hsub as [|x sub Hx _ (t & ->)]; [by exists [] |].
      destruct x as [s|]; [| done]. by exists (s :: t). }
    by exists (t :: text).
Qed.

Lemma rejoined_textual p sub :
  count_tuples p sub <= 1 ->
  (forall line items t, process p line = Tuple items -> t ∈ items ->
     is_tuple t = false) ->
  textual (rejoined p sub).
Proof.
  intros Hc Hitems. destruct (count_tuples p sub) as [|n] eqn:Hn.
  - rewrite rejoined_plain by done. constructor; [| constructor].
    apply Forall_fmap, Forall_forall. intros line Hline. simpl.
    by eapply count_tuples_zero.
  - destruct (first_tuple_Some p sub) as (k & line & items & Hf & Hk & Hp); [lia |].
    unfold rejoined. rewrite Hf. apply Forall_fmap, Forall_forall.
    intros t Ht. simpl. apply Forall_lookup. intros j x Hj.
    destruct (decide (j = k)) as [-> | Hne].
    + rewrite list_lookup_insert_eq in Hj.
      * injection Hj as <-. by apply (Hitems line items).
      * rewrite length_fmap. by eapply lookup_lt_Some.
    + rewrite list_lookup_insert_ne in Hj by done.
      rewrite list_lookup_fmap in Hj.
      destruct (sub !! j) as [l|] eqn:Hl; simpl in Hj; [| done].
      injection Hj as <-. destruct (is_tuple (process p l)) eqn:Hx; [| done].
      assert (2 <= count_tuples p sub); [| lia].
      apply (count_tuples_two p sub j k l line Hl Hk Hne Hx). by rewrite Hp.
Qed.

Lemma apply_keeps_text p self self' :
  (forall line items t, process p line = Tuple items -> t ∈ items ->
     is_tuple t = false) ->
  apply p self = (Return tt, self') ->
  textual (_sub_slides self').
Proof.
  intros Hitems Happ. pose proof (apply_Return_inv _ _ _ Happ) as Hall.
  rewrite apply_returns in Happ by done. injection Happ as <-. simpl.
  unfold at_most_one in Hall. unfold textual.
  induction Hall as [|sub subs Hsub _ IH]; csimpl; [constructor |].
  apply Forall_app. split; [| done]. by apply rejoined_textual.
Qed.

Lemma Slide_init_textual (lines : list string) :
  textual (_sub_slides (Slide_init (Str <$> lines))).
Proof.
  constructor; [| constructor]. by apply Forall_fmap, Forall_forall.
Qed.

(** * Further properties *)

(** ** [Slide.apply]: which exceptions, how many sub-slides *)





Lemma apply_keeps_lengths p self n :
  Forall (fun sub => length sub = n) (_sub_slides self) ->
  Forall (fun sub => length sub = n) (_sub_slides (apply p self).2).
Proof.
  intros Hn. destruct (at_most_one_or_clash p self) as [H | H].
  - rewrite apply_returns by done. simpl.
    induction Hn as [|sub subs Hsub _ IH]; csimpl; [constructor |].
    apply Forall_app. split; [| done].
    eapply Forall_impl; [apply rejoined_length |]. simpl. congruence.
  - by rewrite apply_raises.
Qed.

(** X2. Lines are never added to a sub-slide nor taken from it: after any
    sequence of calls of [apply], returning or raising, every sub-slide
    has as many lines as the slide was built from. *)
Theorem sub_slide_lengths (ps : list Processor) (slide_lines : list pyobj) :
  Forall (fun sub => length sub = length slide_lines)
    (_sub_slides (calls ps (Slide_init slide_lines))).
Proof.
  assert (forall self n,
            Forall (fun sub => length sub = n) (_sub_slides self) ->
            Forall (fun sub => length sub = n) (_sub_slides (calls ps self)))
    as Hcalls.
  { unfold calls. induction ps as [|p ps IH]; intros self n Hn; simpl; [done |].
    apply IH. by apply apply_keeps_lengths. }
  apply Hcalls. by repeat constructor.
Qed.

(** X3. The sub-slides are processed independently of each other: on the
    sub-slides [A ++ B] a call of [apply] returns when it returns on [A]
    and on [B], then with the new sub-slides of [A] followed by those of
    [B] and the flag set if one of the two sets it; and it raises when it
    raises on [A] or on [B]. *)
Theorem apply_app (p : Processor) (lines : list pyobj)
    (A B : list (list pyobj)) (flag : bool) :
  let sA := apply p (mkSlide lines A flag) in
  let sB := apply p (mkSlide lines B flag) in
  let sAB := apply p (mkSlide lines (A ++ B) flag) in
  (sA.1 = Return tt -> sB.1 = Return tt ->
   sAB = (Return tt,
          mkSlide lines (_sub_slides sA.2 ++ _sub_slides sB.2)
            (_override_transition sA.2 || _override_transition sB.2))) /\
  ((exists e, sA.1 = Raise e) \/ (exists e, sB.1 = Raise e) ->
   exists e, sAB = (Raise e, mkSlide lines (A ++ B) flag)).
Proof.
  intros sA sB sAB. unfold sA, sB, sAB. split.
  - intros HA HB.
    assert (at_most_one p (mkSlide lines A flag)) as HA1.
    { destruct (at_most_one_or_clash p (mkSlide lines A flag)) as [H | H]; [done |].
      rewrite apply_raises in HA by done. discriminate HA. }
    assert (at_most_one p (mkSlide lines B flag)) as HB1.
    { destruct (at_most_one_or_clash p (mkSlide lines B flag)) as [H | H]; [done |].
      rewrite apply_raises in HB by done. discriminate HB. }
    rewrite !apply_returns; [| done | done | by apply Forall_app].
    simpl. rewrite fmap_app, concat_app, existsb_app. f_equal. f_equal.
    destruct flag; simpl; [done |].
    by destruct (existsb (expands p) A).
  - intros Hraise.
    assert (clash p (mkSlide lines (A ++ B) flag)) as Hclash.
    { unfold clash. simpl. apply Exists_app.
      destruct Hraise as [[e He] | [e He]]; [left | right].
      - destruct (at_most_one_or_clash p (mkSlide lines A flag)) as [H | H]; [| done].
        rewrite apply_returns in He by done. discriminate He.
      - destruct (at_most_one_or_clash p (mkSlide lines B flag)) as [H | H]; [| done].
        rewrite apply_returns in He by done. discriminate He. }
    rewrite apply_raises by done. by eexists.
Qed.

Lemma apply_app_witness :
  apply images (mkSlide [] ([[Str ("IMG:x" +:+ NL)]] ++ [[Str "text"]]) false) =
    (Return tt,
     mkSlide []
       ([[Str ("one" +:+ NL)]; [Str ("two" +:+ NL)]; [Str ("three" +:+ NL)]]
        ++ [[Str "text"]]) true) /\
  exists e,
    apply images
      (mkSlide [] ([[Str "text"]]
                   ++ [[Str ("IMG:x" +:+ NL); Str ("IMG:y" +:+ NL)]]) false) =
      (Raise e,
       mkSlide [] ([[Str "text"]]
                   ++ [[Str ("IMG:x" +:+ NL); Str ("IMG:y" +:+ NL)]]) false).
Proof.
  split.
  - exact (proj1 (apply_app images [] [[Str ("IMG:x" +:+ NL)]] [[Str "text"]] false)
             eq_refl eq_refl).
  - apply (proj2 (apply_app images [] [[Str "text"]]
                    [[Str ("IMG:x" +:+ NL); Str ("IMG:y" +:+ NL)]] false)).
    right. eexists. reflexivity.
Defined.

Lemma rejoined_variants p sub :
  count_tuples p sub <= 1 ->
  length (rejoined p sub) = 1 /\ count_tuples p sub = 0 \/
  exists k line items,
    sub !! k = Some line /\ process p line = Tuple items /\
    length (rejoined p sub) = length items.
Proof.
  intros Hc. destruct (count_tuples p sub) as [|n] eqn:Hn.
  - left. by rewrite rejoined_plain.
  - right.
    destruct (first_tuple_Some p sub) as (k & line & items & Hf & Hk & Hp); [lia |].
    exists k, line, items. split; [done |]. split; [done |].
    unfold rejoined. by rewrite Hf, length_fmap.
Qed.

(** X4. When every sub-slide has an expanding line and every tuple of the
    pass has [M] items, a call of [apply] that returns multiplies the
    number of sub-slides by [M]. *)
Theorem uniform_expansion_count (p : Processor) (self self' : Slide) (M : nat) :
  apply p self = (Return tt, self') ->
  (forall sub, sub ∈ _sub_slides self ->
     exists line, line ∈ sub /\ is_tuple (process p line) = true) ->
  (forall sub line items, sub ∈ _sub_slides self -> line ∈ sub ->
     process p line = Tuple items -> length items = M) ->
  length (_sub_slides self') = M * length (_sub_slides self).
Proof.
  intros Happ Hexp Hitems. pose proof (apply_Return_inv _ _ _ Happ) as Hall.
  rewrite apply_returns in Happ by done. injection Happ as <-. simpl.
  unfold at_most_one in Hall.
  induction Hall as [|sub subs Hsub _ IH]; csimpl; [lia |].
  rewrite length_app, IH.
  - destruct (rejoined_variants p sub Hsub)
      as [[_ Hzero] | (k & line & items & Hk & Hp & ->)].
    + destruct (Hexp sub) as (line & Hline & Ht); [by left |].
      apply (count_tuples_zero p sub) with (line := line) in Hzero; [| done].
      congruence.
    + rewrite (Hitems sub line items); [lia | by left | | done].
      by eapply list_elem_of_lookup_2.
  - intros s Hs. apply Hexp. by right.
  - intros s line items Hs. apply Hitems. by right.
Qed.

Lemma uniform_expansion_count_witness :
  length (_sub_slides (apply images captioned).2) = 3 * 1.
Proof.
  apply (uniform_expansion_count images captioned (apply images captioned).2 3).
  - reflexivity.
  - intros sub Hsub. apply list_elem_of_singleton in Hsub. subst sub.
    exists (Str ("IMG:x" +:+ NL)). split; [apply list_elem_of_here | reflexivity].
  - intros sub line items Hsub Hline Hp.
    apply list_elem_of_singleton in Hsub. subst sub.
    apply elem_of_cons in Hline as [-> | Hline].
    + injection Hp as <-. reflexivity.
    + apply list_elem_of_singleton in Hline. subst line. discriminate Hp.
Defined.

(** X5. Only an empty tuple takes sub-slides away: when the processor
    returns no empty tuple for the lines of the slide, a call of [apply]
    that returns leaves at least as many sub-slides as there were. *)
Theorem sub_slide_count_monotone (p : Processor) (self self' : Slide) :
  apply p self = (Return tt, self') ->
  (forall sub line, sub ∈ _sub_slides self -> line ∈ sub ->
     process p line <> Tuple []) ->
  length (_sub_slides self) <= length (_sub_slides self').
Proof.
  intros Happ Hne. pose proof (apply_Return_inv _ _ _ Happ) as Hall.
  rewrite apply_returns in Happ by done. injection Happ as <-. simpl.
  unfold at_most_one in Hall.
  induction Hall as [|sub subs Hsub _ IH]; csimpl; [lia |].
  rewrite length_app.
  assert (1 <= length (rejoined p sub)).
  { destruct (rejoined_variants p sub Hsub)
      as [[-> _] | (k & line & items & Hk & Hp & ->)]; [lia |].
    destruct items as [|t items]; simpl; [| lia].
    exfalso. apply (Hne sub line); [by left | | done].
    by eapply list_elem_of_lookup_2. }
  assert (length subs <= length (concat (rejoined p <$> subs))); [| lia].
  apply IH. intros s line Hs. apply Hne. by right.
Qed.

Lemma sub_slide_count_monotone_witness :
  length (_sub_slides captioned) <= length (_sub_slides (apply single captioned).2).
Proof.
  apply (sub_slide_count_monotone single captioned (apply single captioned).2).
  - reflexivity.
  - intros sub line Hsub Hline.
    apply list_elem_of_singleton in Hsub. subst sub.
    apply elem_of_cons in Hline as [-> | Hline]; [discriminate |].
    apply list_elem_of_singleton in Hline. subst line. discriminate.
Defined.

(** X6. An empty tuple removes the sub-slide: when in every sub-slide a
    line becomes the empty tuple, a call of [apply] that returns leaves the
    slide without sub-slides, and the html of a slide without sub-slides is
    the empty string, whatever the flag. *)
Theorem empty_tuple_removes (p : Processor) (self self' : Slide)
    (md : string -> string) :
  apply p self = (Return tt, self') ->
  (forall sub, sub ∈ _sub_slides self ->
     exists line, line ∈ sub /\ process p line = Tuple []) ->
  _sub_slides self' = [] /\ html md self' = Return EmptyString.
Proof.
  intros Happ Hempty. pose proof (apply_Return_inv _ _ _ Happ) as Hall.
  rewrite apply_returns in Happ by done. injection Happ as <-. simpl.
  assert (concat (rejoined p <$> _sub_slides self) = []) as Hnil.
  { unfold at_most_one in Hall.
    induction Hall as [|sub subs Hsub _ IH]; csimpl; [done |].
    rewrite IH by (intros s Hs; apply Hempty; by right).
    destruct (Hempty sub) as (line & Hline & Hp); [by left |].
    apply list_elem_of_lookup in Hline as [k Hk].
    destruct (rejoined_at p sub k line [] Hsub Hk Hp) as [Hf _].
    unfold rejoined. by rewrite Hf. }
  split; [done |]. unfold html. simpl. by rewrite Hnil.
Qed.

Lemma empty_tuple_removes_witness :
  _sub_slides (apply none_of captioned).2 = [] /\
  html (fun text => text) (apply none_of captioned).2 = Return EmptyString.
Proof.
  apply (empty_tuple_removes none_of captioned).
  - reflexivity.
  - intros sub Hsub. apply list_elem_of_singleton in Hsub. subst sub.
    exists (Str ("IMG:x" +:+ NL)). split; [apply list_elem_of_here | reflexivity].
Defined.

(** ** [Slide.html]: when it raises, how it composes *)

Lemma join_cases xs :
  Forall (fun x => is_tuple x = false) xs /\ (exists s, join xs = Return s) \/
  ~ Forall (fun x => is_tuple x = false) xs /\ join xs = Raise TypeError.
Proof.
  induction xs as [|x xs IH]; simpl.
  - left. split; [constructor | by eexists].
  - destruct x as [s|items].
    + destruct IH as [[Hall [r ->]] | [Hnot ->]]; simpl.
      * left. split; [by constructor | by eexists].
      * right. split; [| done]. intros H. apply Hnot. by inversion H.
    + right. split; [| done]. intros H. by inversion H.
Qed.

Lemma html_sub_slides_acc md self subs out :
  html_sub_slides md self subs out =
    r ← html_sub_slides md self subs []; Return (out ++ r).
Proof.
  revert out. induction subs as [|sub subs IH]; intros out; simpl.
  - by rewrite app_nil_r.
  - destruct (join sub) as [text|e]; simpl; [| done].
    rewrite IH. symmetry. rewrite IH.
    destruct (html_sub_slides md self subs []) as [r|e]; simpl; [| done].
    by rewrite <- app_assoc.
Qed.

Lemma html_sub_slides_raises md self subs out :
  ~ textual subs -> html_sub_slides md self subs out = Raise TypeError.
Proof.
  revert out. induction subs as [|sub subs IH]; intros out Hnot.
  - exfalso. apply Hnot. constructor.
  - simpl. destruct (join_cases sub) as [[Hall [s ->]] | [_ ->]]; simpl; [| done].
    apply IH. intros H. apply Hnot. by constructor.
Qed.

(** X7. [html] returns exactly when every entry of every sub-slide is a
    string, and raises [TypeError] otherwise; a tuple gets into a sub-slide
    when a processor returns a tuple whose item is a tuple. *)
Theorem html_returns_iff (md : string -> string) (self : Slide) :
  (textual (_sub_slides self) -> exists h, html md self = Return h) /\
  (~ textual (_sub_slides self) -> html md self = Raise TypeError).
Proof.
  split.
  - intros Htext. destruct (textual_text _ Htext) as (text & Heq).
    unfold html. rewrite Heq, html_sub_slides_text. by eexists.
  - intros Hnot. unfold html. by rewrite html_sub_slides_raises.
Qed.

Lemma html_returns_iff_witness :
  (exists h, html (fun text => text) captioned = Return h) /\
  html (fun text => text) (apply nested captioned).2 = Raise TypeError.
Proof.
  split.
  - apply (proj1 (html_returns_iff (fun text => text) captioned)).
    repeat constructor.
  - apply (proj2 (html_returns_iff (fun text => text) (apply nested captioned).2)).
    intros H. apply Forall_cons in H as [H _]. apply Forall_cons in H as [H _].
    discriminate H.
Defined.

Lemma join_strs_app xs ys : join_strs (xs ++ ys) = join_strs xs +:+ join_strs ys.
Proof.
  induction xs as [|x xs IH]; simpl; [done |]. by rewrite IH, append_assoc.
Qed.

Lemma html_sub_slides_flag md self1 self2 subs out :
  _override_transition self1 = _override_transition self2 ->
  html_sub_slides md self1 subs out = html_sub_slides md self2 subs out.
Proof.
  intros Hflag. revert out.
  induction subs as [|sub subs IH]; intros out; simpl; [done |].
  rewrite Hflag. destruct (join sub) as [text|e]; simpl; [| done]. apply IH.
Qed.

Lemma html_sub_slides_app md self A B out :
  html_sub_slides md self (A ++ B) out =
    r ← html_sub_slides md self A out; html_sub_slides md self B r.
Proof.
  revert out. induction A as [|sub A IH]; intros out; simpl; [done |].
  destruct (join sub) as [text|e]; simpl; [| done]. apply IH.
Qed.

(** X8. The html of a slide is the html of its sub-slides one after the
    other: for the sub-slides [A ++ B] it is the html for [A] followed by
    the html for [B]. *)
Theorem html_app (md : string -> string) (lines : list pyobj)
    (A B : list (list pyobj)) (flag : bool) (a b : string) :
  html md (mkSlide lines A flag) = Return a ->
  html md (mkSlide lines B flag) = Return b ->
  html md (mkSlide lines (A ++ B) flag) = Return (a +:+ b).
Proof.
  unfold html. cbn [_sub_slides]. intros HA HB.
  rewrite html_sub_slides_app.
  rewrite (html_sub_slides_flag md _ (mkSlide lines A flag) A) by done.
  destruct (html_sub_slides md (mkSlide lines A flag) A []) as [ra|e];
    simpl in HA; [| done].
  injection HA as <-. cbn [mbind outcome_bind].
  rewrite html_sub_slides_acc.
  rewrite (html_sub_slides_flag md _ (mkSlide lines B flag) B) by done.
  destruct (html_sub_slides md (mkSlide lines B flag) B []) as [rb|e];
    simpl in HB; [| done].
  injection HB as <-. cbn [mbind outcome_bind]. by rewrite join_strs_app.
Qed.

Lemma html_app_witness :
  html (fun text => text) (mkSlide [] ([[Str "a"]] ++ [[Str "b"]]) false) =
    Return (("<section>" +:+ NL +:+ "  a" +:+ NL +:+ "</section>" +:+ NL +:+ NL)
            +:+ ("<section>" +:+ NL +:+ "  b" +:+ NL +:+ "</section>" +:+ NL +:+ NL)).
Proof.
  apply (html_app (fun text => text) [] [[Str "a"]] [[Str "b"]] false);
    reflexivity.
Defined.

(** ** [_read_md_file]: round trip and composition *)

Lemma elem_of_concat {A} (x : A) (l : list A) (ls : list (list A)) :
  x ∈ l -> l ∈ ls -> x ∈ concat ls.
Proof.
  intros Hx Hl. induction Hl as [l ls | l l' ls _ IH]; simpl.
  - apply elem_of_app. left. exact Hx.
  - apply elem_of_app. right. exact (IH Hx).
Qed.

Section SplittingMore.

Context (search : string -> bool).

Lemma weave_read_lines content slide_content :
  weave (_slide_lines <$> finish (read_lines search content [] slide_content))
        (Str <$> filter (fun l => search l = true) content) =
    slide_content ++ (Str <$> content).
Proof.
  revert slide_content.
  induction content as [|line content IH]; intros slide_content; csimpl.
  - by rewrite app_nil_r.
  - destruct (search line) eqn:Hline.
    + rewrite read_lines_slides. rewrite filter_cons_True by done. csimpl.
      by rewrite IH.
    + rewrite filter_cons_False by congruence.
      rewrite IH. by rewrite <- app_assoc.
Qed.

(** X9. Nothing of the document is lost but the place of the delimiters:
    the lines of the slides, with the delimiter lines of the document put
    back between them in order, are the document. *)
Theorem read_md_file_round_trip (content : list string) :
  weave (_slide_lines <$> _read_md_file search content)
        (Str <$> filter (fun l => search l = true) content) =
    Str <$> content.
Proof. rewrite _read_md_file_finish. apply weave_read_lines. Qed.

(** X10. Splitting composes at every delimiter: the slides of a document
    with a delimiter line [d] are the slides of what is before [d]
    followed by the slides of what is after it. *)
Theorem read_md_file_app (a b : list string) (d : string) :
  search d = true ->
  _read_md_file search (a ++ d :: b) =
    _read_md_file search a ++ _read_md_file search b.
Proof.
  intros Hd. rewrite !_read_md_file_finish, read_lines_app.
  destruct (read_lines search a [] []) as [slides slide_content] eqn:Ea.
  simpl. rewrite Hd. rewrite read_lines_slides. unfold finish at 2. simpl.
  by rewrite <- app_assoc.
Qed.

Lemma read_lines_fresh content slides slide_content :
  Forall (fun s => s = Slide_init (_slide_lines s)) slides ->
  Forall (fun s => s = Slide_init (_slide_lines s))
    (finish (read_lines search content slides slide_content)).
Proof.
  revert slides slide_content.
  induction content as [|line content IH]; intros slides slide_content Hs; simpl.
  - unfold finish. simpl. apply Forall_app. split; [done |]. by repeat constructor.
  - destruct (search line); apply IH; [| done].
    apply Forall_app. split; [done |]. by repeat constructor.
Qed.

(** X11. Every slide that [_read_md_file] makes is a new slide (one
    sub-slide, equal to its lines, and the flag false) whose lines are
    lines of the document that are no delimiters. *)
Theorem read_md_file_slides (content : list string) (s : Slide) :
  s ∈ _read_md_file search content ->
  s = Slide_init (_slide_lines s) /\
  _sub_slides s = [_slide_lines s] /\
  _override_transition s = false /\
  forall x, x ∈ _slide_lines s ->
    exists line, x = Str line /\ line ∈ content /\ search line = false.
Proof.
  intros Hs.
  assert (s = Slide_init (_slide_lines s)) as Hfresh.
  { pose proof (read_lines_fresh content [] [] (Forall_nil_2 _)) as Hall.
    rewrite <- _read_md_file_finish in Hall.
    by apply (proj1 (Forall_forall _ _) Hall). }
  split; [done |]. split; [by rewrite Hfresh at 1 |].
  split; [by rewrite Hfresh |].
  intros x Hx.
  assert (x ∈ concat (_slide_lines <$> _read_md_file search content)) as Hin.
  { apply (elem_of_concat x (_slide_lines s)); [done |].
    by apply list_elem_of_fmap_2. }
  rewrite _read_md_file_lines in Hin.
  apply list_elem_of_fmap in Hin as (line & -> & Hline).
  apply list_elem_of_filter in Hline as [Hno Hline]. by exists line.
Qed.

End SplittingMore.

Lemma read_md_file_app_witness :
  _read_md_file (contains default_slide_break)
    (["A" +:+ NL] ++ (">>>" +:+ NL) :: [">>> again"; "B"]) =
    [Slide_init [Str ("A" +:+ NL)]] ++ [Slide_init []; Slide_init [Str "B"]].
Proof.
  rewrite (read_md_file_app (contains default_slide_break)); reflexivity.
Defined.

Lemma read_md_file_slides_witness :
  _sub_slides (Slide_init [Str "B"]) = [[Str "B"]].
Proof.
  destruct (read_md_file_slides (contains default_slide_break)
              ["A"; ">>>"; "B"] (Slide_init [Str "B"])) as (_ & H & _).
  - apply list_elem_of_further, list_elem_of_here.
  - exact H.
Defined.

(** ** [SlideMachine.process] *)

Lemma apply_slides_ok p slides :
  Forall (fun s => (apply p s).1 = Return tt) slides ->
  SlideMachine.apply_slides p slides =
    (Return tt, (fun s => (apply p s).2) <$> slides).
Proof.
  induction 1 as [|s slides Hs _ IH]; csimpl; [done |].
  destruct (apply p s) as [[[]|e] s']; simpl in *; [| done].
  by rewrite IH.
Qed.

Lemma apply_slides_inv p slides :
  (SlideMachine.apply_slides p slides).1 = Return tt ->
  Forall (fun s => (apply p s).1 = Return tt) slides.
Proof.
  induction slides as [|s slides IH]; simpl; [constructor |].
  destruct (apply p s) as [[[]|e] s'] eqn:E; simpl; [| done].
  destruct (SlideMachine.apply_slides p slides) as [o rest]. simpl in *.
  intros ->. constructor; [by rewrite E | by apply IH].
Qed.

Lemma all_return_cons p ps slides :
  Forall (all_return (p :: ps)) slides <->
  Forall (fun s => (apply p s).1 = Return tt) slides /\
  Forall (all_return ps) ((fun s => (apply p s).2) <$> slides).
Proof.
  rewrite Forall_fmap. simpl. rewrite <- Forall_and. done.
Qed.

Lemma calls_cons p ps (slides : list Slide) :
  calls (p :: ps) <$> slides = calls ps <$> ((fun s => (apply p s).2) <$> slides).
Proof. rewrite <- list_fmap_compose. done. Qed.

Lemma apply_processors_ok ps slides :
  Forall (all_return ps) slides ->
  SlideMachine.apply_processors ps slides = (Return tt, calls ps <$> slides).
Proof.
  revert slides. induction ps as [|p ps IH]; intros slides Hall.
  - simpl. f_equal. unfold calls. simpl. by rewrite list_fmap_id.
  - apply all_return_cons in Hall as [Hp Hps].
    cbn [SlideMachine.apply_processors]. rewrite apply_slides_ok by done.
    rewrite IH by done. by rewrite calls_cons.
Qed.

Lemma apply_processors_inv ps slides :
  (SlideMachine.apply_processors ps slides).1 = Return tt ->
  Forall (all_return ps) slides.
Proof.
  revert slides. induction ps as [|p ps IH]; intros slides.
  - intros _. apply Forall_forall. by intros.
  - cbn [SlideMachine.apply_processors].
    destruct (SlideMachine.apply_slides p slides) as [[[]|e] slides'] eqn:E;
      [| done].
    intros Hrest. apply all_return_cons.
    assert (Forall (fun s => (apply p s).1 = Return tt) slides) as Hp.
    { apply apply_slides_inv. by rewrite E. }
    split; [done |]. rewrite apply_slides_ok in E by done.
    injection E as <-. by apply IH.
Qed.

(** X12. The two loops of [process] treat each slide on its own: they
    complete exactly when, for every slide, each pass returns on what the
    passes before it made of that slide, and then every slide is what the
    sequence of the passes makes of it; otherwise an exception is raised. *)
Theorem apply_processors_spec (ps : list Processor) (slides : list Slide) :
  ((SlideMachine.apply_processors ps slides).1 = Return tt <->
   Forall (all_return ps) slides) /\
  (Forall (all_return ps) slides ->
   (SlideMachine.apply_processors ps slides).2 = calls ps <$> slides) /\
  (~ Forall (all_return ps) slides ->
   exists e, (SlideMachine.apply_processors ps slides).1 = Raise e).
Proof.
  split; [split |]; [apply apply_processors_inv | | split].
  - intros H. by rewrite apply_processors_ok.
  - intros H. by rewrite apply_processors_ok.
  - intros Hnot.
    destruct (SlideMachine.apply_processors ps slides) as [[[]|e] slides'] eqn:E.
    + exfalso. apply Hnot. apply apply_processors_inv. by rewrite E.
    + by exists e.
Qed.

Lemma apply_processors_spec_witness :
  (SlideMachine.apply_processors [images; single] [captioned; Slide_init []]).2 =
    calls [images; single] <$> [captioned; Slide_init []] /\
  exists e,
    (SlideMachine.apply_processors [plain; images] [captioned; two_images]).1 =
      Raise e.
Proof.
  split.
  - apply (proj1 (proj2 (apply_processors_spec [images; single]
                           [captioned; Slide_init []]))).
    repeat constructor.
  - apply (proj2 (proj2 (apply_processors_spec [plain; images]
                           [captioned; two_images]))).
    intros H. apply Forall_cons in H as [_ H]. apply Forall_cons in H as [H _].
    destruct H as [_ [H _]]. discriminate H.
Defined.

Lemma html_slides_inv md slides acc r :
  SlideMachine.html_slides md slides acc = Return r ->
  exists hs, Forall2 (fun s h => html md s = Return h) slides hs /\ r = acc ++ hs.
Proof.
  revert acc. induction slides as [|s slides IH]; intros acc; simpl.
  - intros [= <-]. exists []. split; [constructor | by rewrite app_nil_r].
  - destruct (html md s) as [h|e] eqn:E; simpl; [| done].
    intros Hrest. destruct (IH _ Hrest) as (hs & Hall & ->).
    exists (h :: hs). split; [by constructor | by rewrite <- app_assoc].
Qed.

(** X13. When [process] without a reveal file returns, it had not found
    an output file or was forced; every slide is what the sequence of the
    processors makes of it; the text written is the html of the slides in
    the order of the document, one after the other; and it is the value of
    [_html], which the property [html] gives afterwards. *)
Theorem process_output (md : string -> string) (output_file : string)
    (output_exists : bool) (self self' : SlideMachine.machine) (out : string) :
  SlideMachine.process md output_file output_exists None self = (Ok out, self') ->
  (output_exists = true -> SlideMachine._force self = true) /\
  SlideMachine._slides self' =
    calls (SlideMachine._processors self) <$> SlideMachine._slides self /\
  SlideMachine._html self' = Some out /\
  SlideMachine.html self' = Ok out /\
  exists hs,
    Forall2 (fun s h => html md s = Return h) (SlideMachine._slides self') hs /\
    out = join_strs hs.
Proof.
  unfold SlideMachine.process.
  destruct (output_exists && negb (SlideMachine._force self)) eqn:Hex; [done |].
  destruct (SlideMachine.apply_processors (SlideMachine._processors self)
              (SlideMachine._slides self)) as [[[]|e] slides'] eqn:E; [| done].
  assert (slides' = calls (SlideMachine._processors self)
                      <$> SlideMachine._slides self) as ->.
  { pose proof (apply_processors_inv (SlideMachine._processors self)
                  (SlideMachine._slides self)) as Hall.
    rewrite E in Hall. specialize (Hall eq_refl).
    rewrite apply_processors_ok in E by done. by injection E as <-. }
  cbn [SlideMachine._slides SlideMachine.set__slides].
  destruct (SlideMachine.html_slides md _ []) as [html_list|e] eqn:Eh; [| done].
  unfold SlideMachine.html, SlideMachine.get__html. simpl.
  intros [= <- <-]. simpl.
  split.
  { intros ->. simpl in Hex. by destruct (SlideMachine._force self). }
  split; [done |]. split; [done |]. split; [done |].
  destruct (html_slides_inv _ _ _ _ Eh) as (hs & Hall & ->). by exists hs.
Qed.

Lemma process_output_witness :
  SlideMachine._html
    (SlideMachine.process (fun text => text) "out.html" false None two_slides).2 =
    Some ("<section>" +:+ NL +:+ "  A" +:+ NL +:+ "</section>" +:+ NL +:+ NL
          +:+ "<section>" +:+ NL +:+ "  B" +:+ NL +:+ "  C" +:+ NL
          +:+ "</section>" +:+ NL +:+ NL).
Proof.
  destruct (process_output (fun text => text) "out.html" false two_slides
              (SlideMachine.process (fun text => text) "out.html" false None
                 two_slides).2
              ("<section>" +:+ NL +:+ "  A" +:+ NL +:+ "</section>" +:+ NL +:+ NL
               +:+ "<section>" +:+ NL +:+ "  B" +:+ NL +:+ "  C" +:+ NL
               +:+ "</section>" +:+ NL +:+ NL))
    as (_ & _ & H & _).
  - reflexivity.
  - exact H.
Defined.

(** X14. When for some slide a pass raises, [process] raises, with or
    without a reveal file, and [_html] is as before the call: no html is
    produced. *)
Theorem process_failure (md : string -> string) (output_file : string)
    (output_exists : bool) (reveal_html_file : option (list string))
    (self : SlideMachine.machine) :
  ~ Forall (all_return (SlideMachine._processors self)) (SlideMachine._slides self) ->
  exists e self',
    SlideMachine.process md output_file output_exists reveal_html_file self =
      (Err e, self') /\
    SlideMachine._html self' = SlideMachine._html self.
Proof.
  intros Hnot. unfold SlideMachine.process.
  destruct (output_exists && negb (SlideMachine._force self)); [by eexists _, _ |].
  destruct (SlideMachine.apply_processors (SlideMachine._processors self)
              (SlideMachine._slides self)) as [[[]|e] slides'] eqn:E.
  - exfalso. apply Hnot. apply apply_processors_inv. by rewrite E.
  - by eexists _, _.
Qed.

Lemma process_failure_witness :
  exists e self',
    SlideMachine.process (fun text => text) "out.html" false None
      (SlideMachine.mkMachine false [images] [] [captioned; two_images] None) =
      (Err e, self') /\
    SlideMachine._html self' = None.
Proof.
  apply (process_failure (fun text => text) "out.html" false None
           (SlideMachine.mkMachine false [images] [] [captioned; two_images] None)).
  simpl. intros H. apply Forall_cons in H as [_ H]. apply Forall_cons in H as [H _].
  destruct H as [H _]. discriminate H.
Defined.

(** X15. The reveal file changes the result of [process] and nothing
    else: when [process] without a reveal file returns, [process] with one
    leaves the machine in the same state and returns what
    [_merge_with_reveal_file] makes of that state, be it an exception;
    [_html] is assigned before the merge. *)
Theorem process_with_reveal_file (md : string -> string) (output_file : string)
    (output_exists : bool) (reveal_file : list string)
    (self self1 : SlideMachine.machine) (out : string) :
  SlideMachine.process md output_file output_exists None self = (Ok out, self1) ->
  SlideMachine.process md output_file output_exists (Some reveal_file) self =
    (SlideMachine._merge_with_reveal_file reveal_file self1, self1) /\
  SlideMachine._html self1 = Some out.
Proof.
  unfold SlideMachine.process.
  destruct (output_exists && negb (SlideMachine._force self)); [done |].
  destruct (SlideMachine.apply_processors (SlideMachine._processors self)
              (SlideMachine._slides self)) as [[[]|e] slides']; [| done].
  destruct (SlideMachine.html_slides md _ []) as [html_list|e]; [| done].
  unfold SlideMachine.html, SlideMachine.get__html. simpl.
  by intros [= <- <-].
Qed.

Lemma process_with_reveal_file_witness :
  SlideMachine.process (fun text => text) "out.html" false
    (Some ["<html>" +:+ NL]) two_slides =
    (Err NameError,
     (SlideMachine.process (fun text => text) "out.html" false None two_slides).2).
Proof.
  destruct (SlideMachine.process (fun text => text) "out.html" false None two_slides)
    as [r self1] eqn:E.
  destruct r as [out|e]; [| vm_compute in E; discriminate E].
  rewrite (proj1 (process_with_reveal_file (fun text => text) "out.html" false
                    ["<html>" +:+ NL] two_slides self1 out E)).
  f_equal. vm_compute in E. injection E as <- <-. reflexivity.
Defined.

(** ** [SlideMachine._merge_with_reveal_file] *)

Lemma string_length_app (x y : string) :
  String.length (x +:+ y) = String.length x + String.length y.
Proof.
  induction x as [|c x IH]; [done |]. rewrite append_cons. simpl. by rewrite IH.
Qed.

Lemma drop_str_app (x y : string) : drop_str (String.length x) (x +:+ y) = y.
Proof.
  induction x as [|c x IH]; [by destruct y |]. rewrite append_cons. simpl. apply IH.
Qed.

Lemma take_str_app (x y : string) : take_str (String.length x) (x +:+ y) = x.
Proof.
  induction x as [|c x IH]; [by destruct y |].
  rewrite append_cons. simpl. by rewrite IH.
Qed.

Lemma find_char_cons c x s :
  find (String c EmptyString) (String x s) =
    if Ascii.eqb x c then Some 0 else S <$> find (String c EmptyString) s.
Proof.
  cbn [find is_prefix]. rewrite (Ascii.eqb_sym c x).
  destruct (Ascii.eqb x c); by destruct s.
Qed.

Lemma find_char_none c s :
  has_char c s = false -> find (String c EmptyString) s = None.
Proof.
  induction s as [|x s IH]; [done |].
  rewrite find_char_cons. cbn [has_char].
  destruct (Ascii.eqb x c); simpl; [done |].
  intros Hs. by rewrite IH.
Qed.

Lemma find_char_first c b rest :
  has_char c b = false ->
  find (String c EmptyString) (b +:+ String c rest) = Some (String.length b).
Proof.
  induction b as [|x b IH].
  - intros _. change (EmptyString +:+ String c rest) with (String c rest).
    by rewrite find_char_cons, Ascii.eqb_refl.
  - rewrite append_cons, find_char_cons. cbn [has_char].
    destruct (Ascii.eqb x c); simpl; [done |].
    intros Hb. by rewrite IH.
Qed.

Lemma merge_lines_top pre rest top bottom indent :
  Forall (fun x => find slides_class x = None) pre ->
  SlideMachine.merge_lines (pre ++ rest) true top bottom indent =
    SlideMachine.merge_lines rest true (top ++ pre) bottom indent.
Proof.
  intros Hpre. revert top.
  induction Hpre as [|x pre Hx _ IH]; intros top; simpl.
  - by rewrite app_nil_r.
  - rewrite Hx, IH. by rewrite <- app_assoc.
Qed.

Lemma merge_lines_bottom post top bottom indent :
  SlideMachine.merge_lines post false top bottom indent =
    Ok (top, bottom ++ post, indent).
Proof.
  revert bottom. induction post as [|x post IH]; intros bottom; simpl.
  - by rewrite app_nil_r.
  - rewrite IH. by rewrite <- app_assoc.
Qed.

Lemma format_lines_Some i html_lines :
  SlideMachine.format_lines (Some i) html_lines =
    Ok ((fun h => i +:+ h) <$> html_lines).
Proof.
  induction html_lines as [|h html_lines IH]; csimpl; [done |]. by rewrite IH.
Qed.

(** X16. A reveal file without a line that holds [class="slides"] makes
    [_merge_with_reveal_file] raise [NameError]: the variable [indent] is
    read without having been assigned ([AttributeError] comes first when
    the machine has no [_html]). *)
Theorem merge_without_marker (reveal_file : list string)
    (self : SlideMachine.machine) :
  Forall (fun x => find slides_class x = None) reveal_file ->
  SlideMachine._merge_with_reveal_file reveal_file self =
    match SlideMachine._html self with
    | Some _ => Err NameError
    | None => Err (Exn AttributeError)
    end.
Proof.
  intros Hno. unfold SlideMachine._merge_with_reveal_file.
  rewrite <- (app_nil_r reveal_file), merge_lines_top by done.
  cbn [SlideMachine.merge_lines mbind result_bind].
  unfold SlideMachine.get__html.
  destruct (SlideMachine._html self) as [h|]; [| done].
  cbn [mbind result_bind]. unfold split.
  by destruct (split_from_cons nl EmptyString h) as (m & ms & ->).
Qed.

Lemma merge_without_marker_witness :
  SlideMachine._merge_with_reveal_file ["<html>" +:+ NL; "</html>" +:+ NL]
    (SlideMachine.mkMachine false [] [] [] (Some "x")) = Err NameError.
Proof.
  apply (merge_without_marker ["<html>" +:+ NL; "</html>" +:+ NL]
           (SlideMachine.mkMachine false [] [] [] (Some "x"))).
  by repeat constructor.
Defined.

(** X17. When the first line that holds [class="slides"] has no [>] after
    it, [_merge_with_reveal_file] raises [AttributeError]: the search for
    the end of the tag finds nothing and its result is used all the
    same. *)
Theorem merge_unclosed_tag (pre post : list string) (a b : string)
    (self : SlideMachine.machine) :
  Forall (fun x => find slides_class x = None) pre ->
  find slides_class (a +:+ slides_class +:+ b) = Some (String.length a) ->
  has_char ">" b = false ->
  SlideMachine._merge_with_reveal_file
    (pre ++ (a +:+ slides_class +:+ b) :: post) self = Err (Exn AttributeError).
Proof.
  intros Hpre Hfind Hb. unfold SlideMachine._merge_with_reveal_file.
  rewrite merge_lines_top by done. cbn [SlideMachine.merge_lines].
  rewrite Hfind.
  replace (drop_str (String.length a + String.length slides_class)
             (a +:+ slides_class +:+ b)) with b.
  - by rewrite (find_char_none ">" b Hb).
  - rewrite <- string_length_app, <- append_assoc. by rewrite drop_str_app.
Qed.

Lemma merge_unclosed_tag_witness :
  SlideMachine._merge_with_reveal_file
    (["<html>" +:+ NL] ++ ("<div " +:+ slides_class +:+ NL) :: ["</div>"])
    (SlideMachine.mkMachine false [] [] [] (Some "x")) = Err (Exn AttributeError).
Proof.
  apply (merge_unclosed_tag ["<html>" +:+ NL] ["</div>"] "<div " NL
           (SlideMachine.mkMachine false [] [] [] (Some "x"))).
  - by repeat constructor.
  - reflexivity.
  - reflexivity.
Defined.

Lemma merge_lines_marker a b c rest top bottom indent :
  let l := a +:+ slides_class +:+ b +:+ ">" +:+ c in
  find slides_class l = Some (String.length a) ->
  has_char ">" b = false ->
  SlideMachine.merge_lines (l :: rest) true top bottom indent =
    SlideMachine.merge_lines rest false
      (top ++ [a +:+ slides_class +:+ b +:+ ">"; NL +:+ NL])
      (bottom ++ [NL; spaces (String.length l - String.length (strip l)); c])
      (Some (spaces (String.length l - String.length (lstrip l) + 2))).
Proof.
  intros l Hfind Hb. cbn [SlideMachine.merge_lines]. rewrite Hfind.
  assert (drop_str (String.length a + String.length slides_class) l
          = b +:+ ">" +:+ c) as ->.
  { unfold l. rewrite <- string_length_app, <- append_assoc.
    by rewrite drop_str_app. }
  change (b +:+ ">" +:+ c) with (b +:+ String ">" c).
  rewrite (find_char_first ">" b c Hb).
  replace (String.length a + String.length slides_class
           + (String.length b + 1) + 1 - 1)
    with (String.length (a +:+ slides_class +:+ b +:+ ">")).
  2:{ rewrite !string_length_app. simpl. lia. }
  assert (l = (a +:+ slides_class +:+ b +:+ ">") +:+ c) as Hl.
  { unfold l. by rewrite !append_assoc. }
  assert (take_str (String.length (a +:+ slides_class +:+ b +:+ ">")) l
          = a +:+ slides_class +:+ b +:+ ">") as ->.
  { rewrite Hl. apply take_str_app. }
  assert (drop_str (String.length (a +:+ slides_class +:+ b +:+ ">")) l = c) as ->.
  { rewrite Hl. apply drop_str_app. }
  f_equal; by rewrite <- !app_assoc.
Qed.

(** X18. With the first line that holds [class="slides"] being
    [a class="slides" b > c], where [b] has no [>], the merged text is:
    the lines before it; that line up to and with the [>]; an empty line;
    the lines of [_html], each after two spaces more than the whitespace
    the marker line starts with, joined by newlines; a newline, as many
    spaces as the marker line has whitespace at its two ends, and the rest
    [c] of the line; the lines after it, as they are even when they hold
    the marker again. *)
Theorem merge_with_reveal_file_spec (pre post : list string) (a b c h : string)
    (self : SlideMachine.machine) :
  let l := a +:+ slides_class +:+ b +:+ ">" +:+ c in
  Forall (fun x => find slides_class x = None) pre ->
  find slides_class l = Some (String.length a) ->
  has_char ">" b = false ->
  SlideMachine._html self = Some h ->
  SlideMachine._merge_with_reveal_file (pre ++ l :: post) self =
    Ok (join_strs pre +:+ (a +:+ slides_class +:+ b +:+ ">") +:+ NL +:+ NL
        +:+ join_with NL
              ((fun m => spaces (String.length l - String.length (lstrip l) + 2)
                         +:+ m) <$> split nl h)
        +:+ NL +:+ spaces (String.length l - String.length (strip l)) +:+ c
        +:+ join_strs post).
Proof.
  intros l Hpre Hfind Hb Hh. unfold SlideMachine._merge_with_reveal_file.
  rewrite merge_lines_top by done.
  unfold l at 1. rewrite merge_lines_marker by done.
  rewrite merge_lines_bottom. cbn [mbind result_bind].
  unfold SlideMachine.get__html. rewrite Hh. cbn [mbind result_bind].
  rewrite format_lines_Some. cbn [mbind result_bind]. f_equal.
  rewrite !join_strs_app. cbn [join_strs app].
  rewrite !append_nil_r, !append_assoc. reflexivity.
Qed.

Lemma merge_with_reveal_file_spec_witness :
  SlideMachine._merge_with_reveal_file
    (["<html>" +:+ NL]
     ++ ("  <div " +:+ slides_class +:+ EmptyString +:+ ">" +:+ "</div>" +:+ NL)
     :: ["</html>" +:+ NL])
    (SlideMachine.mkMachine false [] [] [] (Some ("one" +:+ NL +:+ "two"))) =
    Ok ("<html>" +:+ NL
        +:+ "  <div " +:+ slides_class +:+ ">" +:+ NL +:+ NL
        +:+ "    one" +:+ NL +:+ "    two"
        +:+ NL +:+ "   " +:+ "</div>" +:+ NL
        +:+ "</html>" +:+ NL).
Proof.
  rewrite (merge_with_reveal_file_spec ["<html>" +:+ NL] ["</html>" +:+ NL]
             "  <div " EmptyString ("</div>" +:+ NL) ("one" +:+ NL +:+ "two")).
  - reflexivity.
  - by repeat constructor.
  - reflexivity.
  - reflexivity.
  - reflexivity.
Defined.
